(** * commit-msg.py: the commit message validator of validate.py

    A shallow embedding of [check_header], [check_body] and
    [validate_commit_message] together with the pieces of the Python
    runtime they call ([str.strip], [str.split], [str.splitlines],
    [re.match], tuple unpacking, [print]), and the properties of the
    validator stated in the specification. *)

From Stdlib Require Import List String Ascii NArith Arith Bool Lia.
Import ListNotations.

Local Open Scope N_scope.

(** ** Python text: a [str] is a sequence of Unicode code points *)

Definition char := N.
Definition str := list char.

Definition ord (a : ascii) : char := N_of_ascii a.

(** A Python string literal whose characters are all ASCII. *)
Fixpoint text (s : string) : str :=
  match s with
  | EmptyString => []
  | String a s' => ord a :: text s'
  end.

Definition str_eq_dec : forall a b : str, {a = b} + {a <> b} :=
  list_eq_dec N.eq_dec.

Definition NL : char := 10.

(** [len(s)] *)
Definition len (s : str) : N := N.of_nat (List.length s).

(** [bool(s)] for a string: non-empty. *)
Definition truthy (s : str) : bool :=
  match s with [] => false | _ :: _ => true end.

(** [str.isspace] on one character (CPython's [_PyUnicode_IsWhitespace]). *)
Definition isspace (c : char) : bool :=
  ((9 <=? c) && (c <=? 13)) || ((28 <=? c) && (c <=? 32))
  || (c =? 133) || (c =? 160) || (c =? 5760)
  || ((8192 <=? c) && (c <=? 8202))
  || (c =? 8232) || (c =? 8233) || (c =? 8239) || (c =? 8287) || (c =? 12288).

(** The line boundaries of [str.splitlines] (CPython's
    [_PyUnicode_IsLinebreak]): LF, VT, FF, CR, FS, GS, RS, NEL, LS, PS. *)
Definition islinebreak (c : char) : bool :=
  ((10 <=? c) && (c <=? 13)) || ((28 <=? c) && (c <=? 30))
  || (c =? 133) || (c =? 8232) || (c =? 8233).

Fixpoint lstrip (s : str) : str :=
  match s with
  | [] => []
  | c :: s' => if isspace c then lstrip s' else s
  end.

Definition rstrip (s : str) : str := rev (lstrip (rev s)).

(** [s.strip()] *)
Definition strip (s : str) : str := rstrip (lstrip s).

(** [s.split(sep, maxsplit=n)] for a one-character separator. *)
Fixpoint split (sep : char) (maxsplit : nat) (s : str) {struct s} : list str :=
  match maxsplit, s with
  | O, _ => [s]
  | S _, [] => [[]]
  | S n, c :: s' =>
      if c =? sep then [] :: split sep n s'
      else match split sep maxsplit s' with
           | l :: ls => (c :: l) :: ls
           | [] => [[c]]
           end
  end.

(** [s.split(sep)] with no limit on the number of splits. *)
Definition split_all (sep : char) (s : str) : list str :=
  split sep (S (List.length s)) s.

(** [s.splitlines()]: [cur] is the current line, reversed.  A line is
    closed at every line boundary, CR LF counts as one boundary, and
    no empty line is produced after a final boundary. *)
Fixpoint splitlines_from (cur : str) (s : str) {struct s} : list str :=
  match s with
  | [] => match cur with [] => [] | _ :: _ => [rev cur] end
  | c :: s' =>
      if islinebreak c then
        rev cur ::
        (if c =? 13 then
           match s' with
           | d :: s'' => if d =? 10 then splitlines_from [] s''
                         else splitlines_from [] s'
           | [] => splitlines_from [] s'
           end
         else splitlines_from [] s')
      else splitlines_from (c :: cur) s'
  end.

Definition splitlines (s : str) : list str := splitlines_from [] s.

(** ** Regular expressions: the fragment of [re] the two patterns use

    A backtracking matcher in continuation-passing style, with the
    priorities of Python's engine: the left alternative first, optional
    groups and repetitions greedy. *)

Inductive regex :=
| Eps                                (* the empty pattern *)
| Bol                                (* ^ *)
| Eol                                (* $ *)
| Lit (c : char)                     (* one literal character *)
| Cls (p : char -> bool)             (* one character of a class *)
| Cat (r1 r2 : regex)
| Alt (r1 r2 : regex)                (* r1|r2 *)
| Opt (r : regex)                    (* r? *)
| Plus (p : char -> bool)            (* class+ *)
| Group (n : nat) (r : regex).       (* capturing group number n *)

(** Captured groups, the most recent binding first. *)
Definition captures := list (nat * str).

Fixpoint lookup (n : nat) (c : captures) : option str :=
  match c with
  | [] => None
  | (k, v) :: c' => if Nat.eqb k n then Some v else lookup n c'
  end.

Record Match := { m_end : nat; m_groups : captures }.

Section Matcher.

Variable R : Type.
Definition cont := nat -> str -> captures -> option R.

(** Greedy class*: as many characters as possible, giving one back
    at a time when the continuation fails. *)
Fixpoint star (p : char -> bool) (k : cont) (pos : nat) (s : str)
              (c : captures) {struct s} : option R :=
  match s with
  | x :: s' =>
      if p x then
        match star p k (S pos) s' c with
        | Some r => Some r
        | None => k pos s c
        end
      else k pos s c
  | [] => k pos s c
  end.

Fixpoint run (r : regex) (pos : nat) (s : str) (c : captures) (k : cont)
  : option R :=
  match r with
  | Eps => k pos s c
  | Bol => if Nat.eqb pos 0 then k pos s c else None
  | Eol =>
      match s with
      | [] => k pos s c
      | [x] => if x =? NL then k pos s c else None
      | _ => None
      end
  | Lit ch =>
      match s with
      | x :: s' => if x =? ch then k (S pos) s' c else None
      | [] => None
      end
  | Cls p =>
      match s with
      | x :: s' => if p x then k (S pos) s' c else None
      | [] => None
      end
  | Cat r1 r2 => run r1 pos s c (fun pos' s' c' => run r2 pos' s' c' k)
  | Alt r1 r2 =>
      match run r1 pos s c k with
      | Some x => Some x
      | None => run r2 pos s c k
      end
  | Opt r1 =>
      match run r1 pos s c k with
      | Some x => Some x
      | None => k pos s c
      end
  | Plus p =>
      match s with
      | x :: s' => if p x then star p k (S pos) s' c else None
      | [] => None
      end
  | Group n r1 =>
      run r1 pos s c
          (fun pos' s' c' => k pos' s' ((n, firstn (pos' - pos) s) :: c'))
  end.

End Matcher.

Arguments star {R} p k pos s c.
Arguments run {R} r pos s c k.

(** [re.match(pattern, string)]: the match is anchored at position 0. *)
Definition re_match (pattern : regex) (s : str) : option Match :=
  run pattern 0 s []
      (fun pos _ c => Some {| m_end := pos; m_groups := c |}).

(** [match.group(n)] for n >= 1: [None] when the group did not take part. *)
Definition group (m : Match) (n : nat) : option str := lookup n m.(m_groups).

(** A literal string inside a pattern. *)
Fixpoint lits (s : str) : regex :=
  match s with
  | [] => Eps
  | c :: s' => Cat (Lit c) (lits s')
  end.

Declare Scope re_scope.
Delimit Scope re_scope with re.
Infix "+>" := Cat (at level 60, right associativity) : re_scope.
Infix "<|>" := Alt (at level 70, right associativity) : re_scope.

(** ** Constants of validate.py *)

Definition LINE_LIMIT : N := 100.
Definition BODY_REQUIRED : bool := false.

Inductive Lang := en | zh_CN.
Definition LANG : Lang := en.

Definition TYPE_LIST : list str :=
  [ text "feat"; text "fix"; text "docs"; text "style"; text "refactor";
    text "perf"; text "test"; text "chore"; text "revert"; text "Revert" ].

Inductive ErrorEnum :=
| VALIDATED
| MERGE
| ARG_MISSING
| FILE_MISSING
| EMPTY_MESSAGE
| EMPTY_HEADER
| BAD_HEADER_FORMAT
| WRONG_TYPE
| BODY_MISSING
| NO_BLANK_LINE_BEFORE_BODY
| LINE_OVERLONG.

Definition ErrorEnum_eqb (a b : ErrorEnum) : bool :=
  match a, b with
  | VALIDATED, VALIDATED | MERGE, MERGE | ARG_MISSING, ARG_MISSING
  | FILE_MISSING, FILE_MISSING | EMPTY_MESSAGE, EMPTY_MESSAGE
  | EMPTY_HEADER, EMPTY_HEADER | BAD_HEADER_FORMAT, BAD_HEADER_FORMAT
  | WRONG_TYPE, WRONG_TYPE | BODY_MISSING, BODY_MISSING
  | NO_BLANK_LINE_BEFORE_BODY, NO_BLANK_LINE_BEFORE_BODY
  | LINE_OVERLONG, LINE_OVERLONG => true
  | _, _ => false
  end.

(** [state.name] *)
Definition ErrorEnum_name (e : ErrorEnum) : str :=
  match e with
  | VALIDATED => text "VALIDATED"
  | MERGE => text "MERGE"
  | ARG_MISSING => text "ARG_MISSING"
  | FILE_MISSING => text "FILE_MISSING"
  | EMPTY_MESSAGE => text "EMPTY_MESSAGE"
  | EMPTY_HEADER => text "EMPTY_HEADER"
  | BAD_HEADER_FORMAT => text "BAD_HEADER_FORMAT"
  | WRONG_TYPE => text "WRONG_TYPE"
  | BODY_MISSING => text "BODY_MISSING"
  | NO_BLANK_LINE_BEFORE_BODY => text "NO_BLANK_LINE_BEFORE_BODY"
  | LINE_OVERLONG => text "LINE_OVERLONG"
  end.

Definition NON_FORMAT_ERROR : list ErrorEnum :=
  [VALIDATED; MERGE; ARG_MISSING; FILE_MISSING].

(** [MERGE_PATTERN = r'^Merge '] *)
Definition MERGE_PATTERN : regex := (Bol +> lits (text "Merge "))%re.

(** ** Values, keyword arguments and what gets printed *)

(** The Python values passed to [print_error_msg]: [match.group(3)] is
    a string or [None], [len(header)] an integer. *)
Inductive value :=
| VNone
| VStr (s : str)
| VInt (n : N).

Definition kwargs := list (string * value).

(** [d[key] = v] on a dict kept in insertion order. *)
Fixpoint dict_set (key : string) (v : value) (d : kwargs) : kwargs :=
  match d with
  | [] => [(key, v)]
  | (k, w) :: d' =>
      if String.eqb k key then (k, v) :: d' else (k, w) :: dict_set key v d'
  end.

(** One call of [print].  [Formatted l e kw] is the line
    [ERROR_MESSAGES[l][e]] formatted with the keyword arguments [kw],
    [Rule l] is [RULE_MESSAGE[l]]; the text itself is a function of
    these data and is not unfolded. *)
Inductive printed :=
| Formatted (l : Lang) (e : ErrorEnum) (kw : kwargs)
| Rule (l : Lang).

(** The placeholders of each template of [ERROR_MESSAGES] (the same in
    both languages); [str.format] raises [KeyError] on a missing one. *)
Definition placeholders (e : ErrorEnum) : list string :=
  match e with
  | FILE_MISSING => ["errorname"; "filepath"]
  | BAD_HEADER_FORMAT => ["errorname"; "header"]
  | WRONG_TYPE => ["errorname"; "type"]
  | LINE_OVERLONG => ["errorname"; "length"; "line"]
  | _ => ["errorname"]
  end%string.

(** ** Computations: standard output and exceptions *)

Inductive exn :=
| ValueError        (* unpacking a sequence of the wrong length *)
| KeyError.         (* a placeholder without keyword argument *)

Inductive outcome (A : Type) :=
| Ret (a : A)
| Raise (e : exn).
Arguments Ret {A} a.
Arguments Raise {A} e.

(** A computation maps what was printed so far to its outcome and
    what is printed afterwards. *)
Definition M (A : Type) := list printed -> outcome A * list printed.

Definition ret {A} (a : A) : M A := fun out => (Ret a, out).
Definition raise {A} (e : exn) : M A := fun out => (Raise e, out).
Definition bind {A B} (m : M A) (f : A -> M B) : M B :=
  fun out =>
    match m out with
    | (Ret a, out') => f a out'
    | (Raise e, out') => (Raise e, out')
    end.
(** [print] on a stream that can encode every text: the
    [UnicodeEncodeError] of a stream that cannot is outside the model,
    so the properties below say which check fires and what is
    reported, not that printing succeeds. *)
Definition print (p : printed) : M unit := fun out => (Ret tt, out ++ [p]).

Notation "x <- m ;; f" := (bind m (fun x => f))
  (at level 61, m at next level, right associativity).
Notation "m ;; f" := (bind m (fun _ => f))
  (at level 61, right associativity).

(** [header, body = parts] *)
Definition unpack2 (parts : list str) : M (str * str) :=
  match parts with
  | [a; b] => ret (a, b)
  | _ => raise ValueError
  end.

Definition has_key (d : kwargs) (key : string) : bool :=
  existsb (fun kv => String.eqb (fst kv) key) d.

Definition print_error_msg (state : ErrorEnum) (kw : kwargs) : M unit :=
  let kw := dict_set "errorname" (VStr (ErrorEnum_name state)) kw in
  (if forallb (has_key kw) (placeholders state)
   then print (Formatted LANG state kw)
   else raise KeyError) ;;
  if negb (existsb (ErrorEnum_eqb state) NON_FORMAT_ERROR)
  then print (Rule LANG)
  else ret tt.

(** ** The validator *)

Section Validator.

(** [str.isalnum] on the characters outside ASCII: the table of the
    interpreter's Unicode database, which is not part of validate.py. *)
Variable unicode_isalnum : char -> bool.

Definition ascii_alnum (c : char) : bool :=
  ((48 <=? c) && (c <=? 57)) || ((65 <=? c) && (c <=? 90))
  || ((97 <=? c) && (c <=? 122)).

(** \w of a [str] pattern: alphanumeric or underscore. *)
Definition word (c : char) : bool :=
  if c <? 128 then ascii_alnum c || (c =? 95) else unicode_isalnum c.

(** [^\)\s] *)
Definition scope_char (c : char) : bool :=
  negb ((c =? ord ")") || isspace c).

(** . without DOTALL: anything but a newline *)
Definition dot (c : char) : bool := negb (c =? NL).

(** [HEADER_PATTERN =
    r'^((fixup! |squash! )?(\w+)(?:\(([^\)\s]+)\))?: (.+))(?:\n|$)'] *)
Definition HEADER_PATTERN : regex :=
  (Bol +>
   Group 1 (Opt (Group 2 (lits (text "fixup! ") <|> lits (text "squash! ")))
            +> Group 3 (Plus word)
            +> Opt (Lit (ord "(") +> Group 4 (Plus scope_char)
                    +> Lit (ord ")"))
            +> lits (text ": ")
            +> Group 5 (Plus dot))
   +> (Lit NL <|> Eol))%re.

(** [bool(match.group(2))] *)
Definition truthy_opt (o : option str) : bool :=
  match o with None => false | Some s => truthy s end.

Definition opt_value (o : option str) : value :=
  match o with None => VNone | Some s => VStr s end.

(** [type_ in TYPE_LIST] *)
Definition in_type_list (o : option str) : bool :=
  match o with
  | None => false
  | Some t => if in_dec str_eq_dec t TYPE_LIST then true else false
  end.

(** [type_ == 'revert'] and the like *)
Definition opt_eqb (o : option str) (s : str) : bool :=
  match o with
  | None => false
  | Some t => if str_eq_dec t s then true else false
  end.

Definition check_header (header : str) : M bool :=
  if negb (truthy (strip header)) then
    print_error_msg EMPTY_HEADER [] ;;
    ret false
  else
    match re_match HEADER_PATTERN header with
    | None =>
        print_error_msg BAD_HEADER_FORMAT [("header"%string, VStr header)] ;;
        ret false
    | Some m =>
        let fixup_or_squash := truthy_opt (group m 2) in
        let type_ := group m 3 in
        (if negb (in_type_list type_)
         then print_error_msg WRONG_TYPE [("type"%string, opt_value type_)]
         else ret tt) ;;
        let length := len header in
        if (LINE_LIMIT <? length)
           && negb (fixup_or_squash || opt_eqb type_ (text "revert")
                    || opt_eqb type_ (text "Revert"))
        then
          print_error_msg LINE_OVERLONG
            [("length"%string, VInt length); ("line"%string, VStr header)] ;;
          ret false
        else ret true
    end.

(** The [for] loop of [check_body]. *)
Fixpoint check_lines (lines : list str) : M bool :=
  match lines with
  | [] => ret true
  | line :: rest =>
      let length := len line in
      if LINE_LIMIT <? length then
        print_error_msg LINE_OVERLONG
          [("length"%string, VInt length); ("line"%string, VStr line)] ;;
        ret false
      else check_lines rest
  end.

Definition check_body (body : str) : M bool :=
  if negb (truthy (strip body)) then
    if BODY_REQUIRED then
      print_error_msg BODY_MISSING [] ;;
      ret false
    else ret true
  else if truthy (hd [] (split NL 1 body)) then
    print_error_msg NO_BLANK_LINE_BEFORE_BODY [] ;;
    ret false
  else check_lines (splitlines body).

Definition validate_commit_message (message : str) : M bool :=
  if negb (truthy (strip message)) then
    print_error_msg EMPTY_MESSAGE [] ;;
    ret false
  else
    match re_match MERGE_PATTERN message with
    | Some _ =>
        print_error_msg MERGE [] ;;
        ret true
    | None =>
        hb <- unpack2 (split NL 1 message) ;;
        let '(header, body) := hb in
        ok <- check_header header ;;
        if negb ok then ret false
        else
          ok <- check_body body ;;
          if negb ok then ret false
          else
            print_error_msg VALIDATED [] ;;
            ret true
    end.

End Validator.

(** The table of an interpreter without alphanumerics outside ASCII; the
    examples below hold ASCII text only, for which any table will do. *)
Definition ascii_table : char -> bool := fun _ => false.

(** ** Vocabulary of the properties *)

(** [s.startswith(p)] *)
Fixpoint startswith (p s : str) : bool :=
  match p, s with
  | [], _ => true
  | _ :: _, [] => false
  | a :: p', b :: s' => (b =? a) && startswith p' s'
  end.

(** A string with nothing but whitespace in it (the empty one included). *)
Definition whitespace_only (s : str) : Prop :=
  forallb isspace s = true.

(** What one successful call [print_error_msg(e, **kw)] prints. *)
Definition report (e : ErrorEnum) (kw : kwargs) : list printed :=
  Formatted LANG e (dict_set "errorname" (VStr (ErrorEnum_name e)) kw)
  :: (if existsb (ErrorEnum_eqb e) NON_FORMAT_ERROR then [] else [Rule LANG]).

(** The diagnostic of an overlong line, with its two context fields. *)
Definition overlong (line : str) : list printed :=
  report LINE_OVERLONG
    [("length"%string, VInt (len line)); ("line"%string, VStr line)].

(** The advisory diagnostic of [check_header] about the type keyword. *)
Definition type_warning (type_ : option str) : list printed :=
  if in_type_list type_ then []
  else report WRONG_TYPE [("type"%string, opt_value type_)].

(** The first line of a body as the specification words it: the text
    up to the first newline, or all of it when there is none. *)
Fixpoint first_line (s : str) : str :=
  match s with
  | [] => []
  | c :: s' => if c =? NL then [] else c :: first_line s'
  end.

(** The lines of a body as the specification words them: the body
    split at its newline characters, empty lines included. *)
Definition newline_lines (body : str) : list str := split_all NL body.

(** The words of a pattern, anchors taken as empty. *)
Fixpoint den (r : regex) (w : str) : Prop :=
  match r with
  | Eps | Bol | Eol => w = []
  | Lit ch => w = [ch]
  | Cls p => exists x, w = [x] /\ p x = true
  | Cat r1 r2 => exists w1 w2, w = w1 ++ w2 /\ den r1 w1 /\ den r2 w2
  | Alt r1 r2 => den r1 w \/ den r2 w
  | Opt r1 => w = [] \/ den r1 w
  | Plus p => w <> [] /\ forallb p w = true
  | Group _ r1 => den r1 w
  end.

(** The numbers of the groups of a pattern. *)
Fixpoint groups_of (r : regex) : list nat :=
  match r with
  | Cat r1 r2 | Alt r1 r2 => groups_of r1 ++ groups_of r2
  | Opt r1 => groups_of r1
  | Group n r1 => n :: groups_of r1
  | _ => []
  end.

(** ** The matcher as a relation, the header in parts, the program *)

(** [matches r pos s c w c']: at position [pos], in front of the input
    [s] and with the captures [c], the pattern [r] can consume the word
    [w] and leave the captures [c']. *)
Fixpoint matches (r : regex) (pos : nat) (s : str) (c : captures)
         (w : str) (c' : captures) {struct r} : Prop :=
  match r with
  | Eps => w = [] /\ c' = c
  | Bol => pos = 0%nat /\ w = [] /\ c' = c
  | Eol => (s = [] \/ s = [NL]) /\ w = [] /\ c' = c
  | Lit ch => w = [ch] /\ c' = c
  | Cls p => (exists x, w = [x] /\ p x = true) /\ c' = c
  | Cat r1 r2 =>
      exists w1 w2 c1,
        w = w1 ++ w2 /\ matches r1 pos s c w1 c1 /\
        matches r2 (pos + List.length w1) (skipn (List.length w1) s) c1 w2 c'
  | Alt r1 r2 => matches r1 pos s c w c' \/ matches r2 pos s c w c'
  | Opt r1 => (w = [] /\ c' = c) \/ matches r1 pos s c w c'
  | Plus p => w <> [] /\ forallb p w = true /\ c' = c
  | Group n r1 => exists c1, matches r1 pos s c w c1 /\ c' = (n, w) :: c1
  end.

(** The parts of a header: [fixup! ] or [squash! ] or nothing, the
    type, the scope between parentheses or nothing, the subject. *)
Record header_parts := {
  hp_prefix : option str;
  hp_type : str;
  hp_scope : option str;
  hp_subject : str
}.

Definition opt_text (o : option str) : str :=
  match o with None => [] | Some s => s end.

(** The header written from its parts: [prefix type(scope): subject]. *)
Definition render_header (p : header_parts) : str :=
  opt_text p.(hp_prefix) ++ p.(hp_type)
  ++ match p.(hp_scope) with
     | None => []
     | Some sc => ord "(" :: sc ++ [ord ")"]
     end
  ++ text ": " ++ p.(hp_subject).

Definition is_prefix_keyword (o : option str) : bool :=
  match o with
  | None => true
  | Some s => if str_eq_dec s (text "fixup! ") then true
              else if str_eq_dec s (text "squash! ") then true else false
  end.

(** The parts the grammar allows: a type of one or more word
    characters, a scope of one or more characters other than [)] and
    whitespace, a subject of one or more characters other than newline. *)
Definition well_formed (U : char -> bool) (p : header_parts) : bool :=
  is_prefix_keyword p.(hp_prefix)
  && truthy p.(hp_type) && forallb (word U) p.(hp_type)
  && match p.(hp_scope) with
     | None => true
     | Some sc => truthy sc && forallb scope_char sc
     end
  && truthy p.(hp_subject) && forallb dot p.(hp_subject).

(** What follows a matched header in the string handed to [re.match]:
    nothing, or a newline and anything. *)
Definition line_end (tail : str) : bool :=
  match tail with
  | [] => true
  | c :: _ => c =? NL
  end.

(** Whether the length check lets a header through: it is short
    enough, or carries a prefix, or is a revert. *)
Definition length_ok (p : header_parts) : bool :=
  negb (LINE_LIMIT <? len (render_header p))
  || truthy_opt p.(hp_prefix)
  || (if str_eq_dec p.(hp_type) (text "revert") then true else false)
  || (if str_eq_dec p.(hp_type) (text "Revert") then true else false).

(** The body checks in closed form: what [check_body] says of a body. *)
Definition body_ok (body : str) : bool :=
  forallb isspace body
  || (negb (truthy (first_line body))
      && forallb (fun l => negb (LINE_LIMIT <? len l)) (splitlines body)).

(** A string in which the only line boundary is the newline. *)
Definition only_newline_breaks (s : str) : Prop :=
  forallb (fun c => negb (islinebreak c) || (c =? NL)) s = true.

(** A list of lines without its last line when that one is empty. *)
Fixpoint drop_final_empty (ls : list str) : list str :=
  match ls with
  | [] => []
  | [l] => match l with [] => [] | _ :: _ => [l] end
  | l :: ls' => l :: drop_final_empty ls'
  end.

(** The file named on the command line, as [main] sees it: absent
    ([os.path.exists] is false), or a text file whose [read()] gives
    the text.  Paths that exist but cannot be read as UTF-8 text are
    outside this model. *)
Inductive file :=
| Missing
| Readable (contents : str).

(** [main()] for the argument vector [argv] and the file system [fs].
    [sys.exit(n)] ends the program, so it is the value [n] of the
    computation; an exception of the validator goes through. *)
Definition main (U : char -> bool) (argv : list str) (fs : str -> file)
  : M N :=
  let file_path := nth_error argv 1 in
  if negb (truthy_opt file_path) then
    print_error_msg ARG_MISSING [] ;;
    ret 1
  else
    let path := opt_text file_path in
    match fs path with
    | Missing =>
        print_error_msg FILE_MISSING [("filepath"%string, VStr path)] ;;
        ret 1
    | Readable commit_msg =>
        ok <- validate_commit_message U commit_msg ;;
        if negb ok then ret 1 else ret 0
    end.

(** ** The runtime model on small inputs *)

Example strip_example : strip (text "  a b  ") = text "a b".
Proof. reflexivity. Qed.

Example split_example :
  split NL 1 (text "a" ++ [NL; NL] ++ text "b" ++ [NL])
  = [text "a"; [NL] ++ text "b" ++ [NL]].
Proof. reflexivity. Qed.

Example splitlines_example :
  splitlines (text "a" ++ [13; 10; 10] ++ text "b" ++ [12] ++ text "c" ++ [10])
  = [text "a"; []; text "b"; text "c"].
Proof. reflexivity. Qed.

Example header_with_scope :
  option_map (fun m => (group m 2, group m 3, group m 4, group m 5))
             (re_match (HEADER_PATTERN ascii_table)
                       (text "squash! fix(parser): handle arrays"))
  = Some (Some (text "squash! "), Some (text "fix"), Some (text "parser"),
          Some (text "handle arrays")).
Proof. reflexivity. Qed.

Example header_without_subject :
  re_match (HEADER_PATTERN ascii_table) (text "feat: ") = None.
Proof. reflexivity. Qed.

Example header_without_space_after_colon :
  re_match (HEADER_PATTERN ascii_table) (text "feat:subject") = None.
Proof. reflexivity. Qed.

(** U+FF1A, the fullwidth colon, is not the colon of the grammar. *)
Example header_with_fullwidth_colon :
  re_match (HEADER_PATTERN ascii_table) (text "feat" ++ [65306; 32; 120])
  = None.
Proof. reflexivity. Qed.

Example scenario_validated :
  validate_commit_message ascii_table
    (text "feat(parser): add support for arrays" ++ [NL; NL]
     ++ text "Closes #12") []
  = (Ret true, report VALIDATED []).
Proof. reflexivity. Qed.

Example scenario_merge :
  validate_commit_message ascii_table
    (text "Merge branch 'main' into feature/x") []
  = (Ret true, report MERGE []).
Proof. reflexivity. Qed.

Example scenario_bad_header :
  validate_commit_message ascii_table (text "update stuff" ++ [NL]) []
  = (Ret false,
     report BAD_HEADER_FORMAT
       [("header"%string, VStr (text "update stuff"))]).
Proof. reflexivity. Qed.

Example scenario_no_blank_line :
  validate_commit_message ascii_table
    (text "feat: short header" ++ [NL]
     ++ text "non-blank body line immediately") []
  = (Ret false, report NO_BLANK_LINE_BEFORE_BODY []).
Proof. reflexivity. Qed.

(** ** Properties of the string operations *)

Local Arguments N.eqb : simpl never.
Local Arguments N.leb : simpl never.
Local Arguments N.ltb : simpl never.

Lemma lstrip_nil (s : str) : lstrip s = [] <-> forallb isspace s = true.
Proof.
  induction s as [|c s IH]; simpl.
  - tauto.
  - destruct (isspace c); simpl.
    + exact IH.
    + split; discriminate.
Qed.

Lemma lstrip_head (s : str) :
  lstrip s = [] \/ exists c t, lstrip s = c :: t /\ isspace c = false.
Proof.
  induction s as [|c s IH]; simpl.
  - now left.
  - destruct (isspace c) eqn:E.
    + exact IH.
    + right. now exists c, s.
Qed.

Lemma forallb_rev {A} (p : A -> bool) (l : list A) :
  forallb p (rev l) = forallb p l.
Proof.
  induction l as [|a l IH]; simpl.
  - reflexivity.
  - rewrite forallb_app, IH. simpl. rewrite andb_true_r. apply andb_comm.
Qed.

Lemma strip_falsy (s : str) :
  truthy (strip s) = false <-> whitespace_only s.
Proof.
  unfold whitespace_only, strip, rstrip. split.
  - intros H. apply lstrip_nil.
    destruct (lstrip_head s) as [E | (c & t & E & Hc)]; [exact E|].
    exfalso. rewrite E in H.
    destruct (rev (lstrip (rev (c :: t)))) eqn:E2; [|discriminate H].
    apply (f_equal (@rev char)) in E2. rewrite rev_involutive in E2.
    simpl in E2. apply lstrip_nil in E2.
    rewrite forallb_app in E2. simpl in E2. rewrite Hc in E2.
    rewrite andb_false_r in E2. discriminate.
  - intros H. apply lstrip_nil in H. rewrite H. reflexivity.
Qed.

Lemma strip_truthy (s : str) (c : char) :
  In c s -> isspace c = false -> truthy (strip s) = true.
Proof.
  intros Hin Hc. destruct (truthy (strip s)) eqn:E; [reflexivity|].
  apply strip_falsy in E. unfold whitespace_only in E.
  rewrite forallb_forall in E. rewrite (E c Hin) in Hc. discriminate.
Qed.

Lemma split1_first (s : str) : hd [] (split NL 1 s) = first_line s.
Proof.
  induction s as [|c s IH]; simpl.
  - reflexivity.
  - destruct (c =? NL); simpl.
    + reflexivity.
    + rewrite <- IH. destruct s as [|d s]; simpl.
      * reflexivity.
      * destruct (d =? NL); simpl; [reflexivity|].
        destruct (split NL 1 s); reflexivity.
Qed.

Lemma split1_no_newline (s : str) : ~ In NL s -> split NL 1 s = [s].
Proof.
  induction s as [|c s IH]; simpl; intros H.
  - reflexivity.
  - destruct (N.eqb_spec c NL) as [->|Hc].
    + exfalso. apply H. now left.
    + rewrite IH; [reflexivity|]. intros Hin. apply H. now right.
Qed.

Lemma split1_app (a b : str) :
  ~ In NL a -> split NL 1 (a ++ NL :: b) = [a; b].
Proof.
  induction a as [|c a IH]; simpl; intros H.
  - destruct b; reflexivity.
  - destruct (N.eqb_spec c NL) as [->|Hc].
    + exfalso. apply H. now left.
    + rewrite IH; [reflexivity|]. intros Hin. apply H. now right.
Qed.

Lemma startswith_app (p s : str) :
  startswith p s = true -> s = p ++ skipn (List.length p) s.
Proof.
  revert s. induction p as [|a p IH]; intros s H; simpl.
  - reflexivity.
  - destruct s as [|b s]; simpl in H; [discriminate|].
    apply andb_prop in H. destruct H as [Hb Hp].
    apply N.eqb_eq in Hb. subst b. simpl. f_equal. now apply IH.
Qed.

Lemma startswith_prefix (p rest : str) : startswith p (p ++ rest) = true.
Proof.
  induction p as [|a p IH]; simpl.
  - reflexivity.
  - now rewrite N.eqb_refl.
Qed.

(** A prefix without newline of [h] followed by a newline lies in [h]. *)
Lemma startswith_before_newline (p h b : str) :
  ~ In NL p -> startswith p (h ++ NL :: b) = true -> startswith p h = true.
Proof.
  revert h. induction p as [|a p IH]; intros h Hp H; simpl.
  - reflexivity.
  - destruct h as [|c h]; simpl in H.
    + apply andb_prop in H. destruct H as [H _].
      apply N.eqb_eq in H. exfalso. apply Hp. now left.
    + apply andb_prop in H. destruct H as [H1 H2]. simpl. rewrite H1. simpl.
      apply IH; [|exact H2]. intros Hin. apply Hp. now right.
Qed.

Lemma not_in_newline (s : str) : existsb (N.eqb NL) s = false -> ~ In NL s.
Proof.
  intros H Hin. assert (E : existsb (N.eqb NL) s = true).
  { apply existsb_exists. exists NL. split; [exact Hin|apply N.eqb_refl]. }
  rewrite E in H. discriminate.
Qed.

(** ** Properties of the matcher *)

Lemma run_lits {R} (p : str) :
  forall pos s c (k : cont R),
    run (lits p) pos s c k =
    if startswith p s
    then k (pos + List.length p)%nat (skipn (List.length p) s) c
    else None.
Proof.
  induction p as [|a p IH]; intros pos s c k; simpl.
  - now rewrite Nat.add_0_r.
  - destruct s as [|b s]; [reflexivity|].
    destruct (b =? a); simpl; [|reflexivity].
    rewrite IH. now rewrite Nat.add_succ_r.
Qed.

Lemma merge_match (s : str) :
  re_match MERGE_PATTERN s =
  if startswith (text "Merge ") s
  then Some {| m_end := 6; m_groups := [] |}
  else None.
Proof.
  unfold re_match, MERGE_PATTERN.
  change (run (Bol +> lits (text "Merge "))%re 0 s [] ?k)
    with (run (lits (text "Merge ")) 0 s [] k).
  now rewrite run_lits.
Qed.

Lemma star_inv {R} (p : char -> bool) (k : cont R) :
  forall s pos c x,
    star p k pos s c = Some x ->
    exists w s',
      s = w ++ s' /\ forallb p w = true /\
      k (pos + List.length w)%nat s' c = Some x.
Proof.
  induction s as [|a s IH]; intros pos c x H; simpl in H.
  - exists [], []. simpl. now rewrite Nat.add_0_r.
  - destruct (p a) eqn:Pa.
    + destruct (star p k (S pos) s c) eqn:E.
      * injection H as ->.
        destruct (IH _ _ _ E) as (w & s' & -> & Hw & Hk).
        exists (a :: w), s'. simpl. rewrite Pa, Hw.
        now rewrite Nat.add_succ_r.
      * exists [], (a :: s). simpl. now rewrite Nat.add_0_r.
    + exists [], (a :: s). simpl. now rewrite Nat.add_0_r.
Qed.

(** Soundness of the matcher: a successful run consumed a word of the
    pattern, called its continuation on the rest, and changed the
    captures of the pattern's own groups only. *)
Lemma run_inv {R} (r : regex) :
  forall pos s c (k : cont R) x,
    run r pos s c k = Some x ->
    exists w s' c',
      s = w ++ s' /\ den r w /\
      (forall n, ~ In n (groups_of r) -> lookup n c' = lookup n c) /\
      k (pos + List.length w)%nat s' c' = Some x.
Proof.
  induction r as [ | | |ch|p|r1 IH1 r2 IH2|r1 IH1 r2 IH2|r1 IH1|p|g r1 IH1];
    intros pos s c k x H; simpl in H.
  - exists [], s, c. simpl. now rewrite Nat.add_0_r.
  - destruct (Nat.eqb pos 0); [|discriminate].
    exists [], s, c. simpl. now rewrite Nat.add_0_r.
  - exists [], s, c. simpl. rewrite Nat.add_0_r.
    destruct s as [|a [|b s]]; try discriminate; auto.
    destruct (a =? NL); [auto|discriminate].
  - destruct s as [|a s]; [discriminate|].
    destruct (N.eqb_spec a ch) as [->|]; [|discriminate].
    exists [ch], s, c. simpl. now rewrite Nat.add_1_r.
  - destruct s as [|a s]; [discriminate|].
    destruct (p a) eqn:Pa; [|discriminate].
    exists [a], s, c. simpl. rewrite Nat.add_1_r. repeat split; eauto.
  - destruct (IH1 _ _ _ _ _ H) as (w1 & s1 & c1 & -> & D1 & F1 & H1).
    destruct (IH2 _ _ _ _ _ H1) as (w2 & s2 & c2 & -> & D2 & F2 & H2).
    exists (w1 ++ w2), s2, c2. simpl.
    rewrite <- app_assoc, length_app, Nat.add_assoc.
    repeat split; eauto.
    intros n Hn. rewrite F2, F1; [reflexivity| |];
      intros Hin; apply Hn; apply in_or_app; auto.
  - destruct (run r1 pos s c k) eqn:E.
    + injection H as ->.
      destruct (IH1 _ _ _ _ _ E) as (w & s' & c' & -> & D & F & Hk).
      exists w, s', c'. simpl. repeat split; auto.
      intros n Hn. apply F. intros Hin. apply Hn. apply in_or_app; auto.
    + destruct (IH2 _ _ _ _ _ H) as (w & s' & c' & -> & D & F & Hk).
      exists w, s', c'. simpl. repeat split; auto.
      intros n Hn. apply F. intros Hin. apply Hn. apply in_or_app; auto.
  - destruct (run r1 pos s c k) eqn:E.
    + injection H as ->.
      destruct (IH1 _ _ _ _ _ E) as (w & s' & c' & -> & D & F & Hk).
      exists w, s', c'. simpl. repeat split; auto.
    + exists [], s, c. simpl. rewrite Nat.add_0_r. auto.
  - destruct s as [|a s]; [discriminate|].
    destruct (p a) eqn:Pa; [|discriminate].
    destruct (star_inv _ _ _ _ _ _ H) as (w & s' & -> & Hw & Hk).
    exists (a :: w), s', c. simpl. rewrite Pa, Hw.
    rewrite Nat.add_succ_r. repeat split; auto. discriminate.
  - destruct (IH1 _ _ _ _ _ H) as (w & s' & c' & -> & D & F & Hk).
    exists w, s', ((g, firstn (pos + List.length w - pos) (w ++ s')) :: c').
    split; [reflexivity|]. split; [exact D|]. split; [|exact Hk].
    intros n Hn. simpl. destruct (Nat.eqb_spec g n) as [->|Hg].
    + exfalso. apply Hn. now left.
    + apply F. intros Hin. apply Hn. now right.
Qed.

(** ** Properties of the header grammar *)

Section Header.

Variable U : char -> bool.

Lemma den_header_colon (w : str) :
  den (HEADER_PATTERN U) w -> In (ord ":") w.
Proof.
  unfold HEADER_PATTERN. cbn [den lits text].
  intros D.
  repeat match goal with
         | H : exists _, _ |- _ => destruct H
         | H : _ /\ _ |- _ => destruct H
         end.
  subst. repeat (rewrite in_app_iff; simpl). auto 20.
Qed.

(** A header that matches the grammar holds a colon, so it is not
    made of whitespace alone. *)
Lemma header_match_strip (h : str) (m : Match) :
  re_match (HEADER_PATTERN U) h = Some m -> truthy (strip h) = true.
Proof.
  intros H. apply run_inv in H.
  destruct H as (w & s' & c' & -> & D & _).
  apply strip_truthy with (c := ord ":"); [|reflexivity].
  apply in_or_app. left. now apply den_header_colon.
Qed.

(** No header that begins with [Merge ] matches the grammar. *)
Lemma header_not_merge (h : str) :
  startswith (text "Merge ") h = true ->
  re_match (HEADER_PATTERN U) h = None.
Proof.
  intros H. apply startswith_app in H. rewrite H.
  vm_compute. reflexivity.
Qed.

(** Group 2 took part in a match exactly when the header begins with
    one of the two prefixes. *)
Lemma header_prefix_group (h : str) (m : Match) :
  re_match (HEADER_PATTERN U) h = Some m ->
  truthy_opt (group m 2) =
  startswith (text "fixup! ") h || startswith (text "squash! ") h.
Proof.
  unfold re_match, HEADER_PATTERN, group.
  set (TAIL := (Group 3 _ +> _)%re).
  set (FIN := (Lit NL <|> Eol)%re).
  cbn [run Nat.eqb]. rewrite !run_lits.
  set (K := fun (pos' : nat) (s' : str) (c' : captures) => run FIN _ _ _ _).
  assert (KEEP : forall pos s c,
             run TAIL pos s c K = Some m ->
             lookup 2 (m_groups m) = lookup 2 c).
  { intros pos s c H. apply run_inv in H.
    destruct H as (w & s' & c' & _ & _ & F & H).
    unfold K in H. apply run_inv in H.
    destruct H as (w2 & s2 & c2 & _ & _ & F2 & H).
    injection H as <-. simpl. rewrite F2 by (simpl; tauto).
    simpl. apply F. simpl. intros [?|[?|[?|[]]]]; discriminate. }
  destruct (startswith (text "fixup! ") h) eqn:Ef.
  - apply startswith_app in Ef. simpl List.length in *.
    destruct (run TAIL _ (skipn 7 h) _ K) eqn:E1.
    + intros [= ->]. apply KEEP in E1. rewrite E1, Ef. reflexivity.
    + rewrite Ef.
      replace (startswith (text "squash! ") _) with false by reflexivity.
      replace (run TAIL 0 _ [] K) with (@None Match)
        by (vm_compute; reflexivity).
      discriminate.
  - destruct (startswith (text "squash! ") h) eqn:Es.
    + apply startswith_app in Es. simpl List.length in *.
      destruct (run TAIL _ (skipn 8 h) _ K) eqn:E1.
      * intros [= ->]. apply KEEP in E1. rewrite E1, Es. reflexivity.
      * rewrite Es.
        replace (run TAIL 0 _ [] K) with (@None Match)
          by (vm_compute; reflexivity).
        discriminate.
    + intros H. apply KEEP in H. rewrite H. reflexivity.
Qed.

End Header.

(** ** Properties of the computations *)

Lemma print_error_msg_run (e : ErrorEnum) (kw : kwargs) (out : list printed) :
  forallb (has_key (dict_set "errorname" (VStr (ErrorEnum_name e)) kw))
          (placeholders e) = true ->
  print_error_msg e kw out = (Ret tt, out ++ report e kw).
Proof.
  intros H. unfold print_error_msg, report, bind, print. rewrite H.
  destruct (existsb (ErrorEnum_eqb e) NON_FORMAT_ERROR); simpl.
  - reflexivity.
  - now rewrite <- app_assoc.
Qed.

(** A report followed by [return b]. *)
Lemma report_then_ret {A} (e : ErrorEnum) (kw : kwargs) (b : A)
      (out : list printed) :
  forallb (has_key (dict_set "errorname" (VStr (ErrorEnum_name e)) kw))
          (placeholders e) = true ->
  (print_error_msg e kw ;; ret b) out = (Ret b, out ++ report e kw).
Proof.
  intros H. unfold bind. now rewrite print_error_msg_run.
Qed.

(** The loop over the lines stops at the first overlong one. *)
Lemma check_lines_first_overlong (pre post : list str) (l : str) :
  Forall (fun x => len x <= LINE_LIMIT) pre ->
  LINE_LIMIT < len l ->
  forall out, check_lines (pre ++ l :: post) out = (Ret false, out ++ overlong l).
Proof.
  intros Hpre Hl out. induction Hpre as [|x pre Hx _ IH]; simpl.
  - apply N.ltb_lt in Hl. rewrite Hl.
    now apply report_then_ret.
  - apply N.ltb_ge in Hx. rewrite Hx. exact IH.
Qed.

Lemma check_lines_all_short (lines : list str) :
  Forall (fun x => len x <= LINE_LIMIT) lines ->
  forall out, check_lines lines out = (Ret true, out).
Proof.
  intros H out. induction H as [|x lines Hx _ IH]; simpl.
  - reflexivity.
  - apply N.ltb_ge in Hx. now rewrite Hx.
Qed.

(** A body check that succeeds prints nothing. *)
Lemma check_lines_true (lines : list str) (out0 : list printed) :
  fst (check_lines lines out0) = Ret true ->
  forall out, check_lines lines out = (Ret true, out).
Proof.
  induction lines as [|l lines IH]; simpl; intros H out.
  - reflexivity.
  - destruct (LINE_LIMIT <? len l).
    + rewrite report_then_ret in H by reflexivity. discriminate.
    + now apply IH.
Qed.

Lemma check_body_true (body : str) (out0 : list printed) :
  fst (check_body body out0) = Ret true ->
  forall out, check_body body out = (Ret true, out).
Proof.
  unfold check_body. simpl.
  destruct (negb (truthy (strip body))); [reflexivity|].
  destruct (truthy (hd [] (split NL 1 body))).
  - intros H. rewrite report_then_ret in H by reflexivity. discriminate.
  - apply check_lines_true.
Qed.

(** ** The properties of the specification *)

Section Properties.

Variable U : char -> bool.

(** C1, as the code behaves.  A message that is not whitespace-only,
    does not begin with [Merge ] and holds no newline is split into a
    single part, so unpacking it into header and body raises
    [ValueError] before any check has run: no header is examined and
    nothing is printed. *)
Theorem single_line_message_raises (message : str) :
  ~ whitespace_only message ->
  startswith (text "Merge ") message = false ->
  ~ In NL message ->
  forall out,
    validate_commit_message U message out = (Raise ValueError, out).
Proof.
  intros Hws Hm Hnl out. unfold validate_commit_message.
  destruct (truthy (strip message)) eqn:E.
  - simpl. rewrite merge_match, Hm.
    now rewrite split1_no_newline.
  - apply strip_falsy in E. contradiction.
Qed.

(** C3.  Every message made of whitespace alone, the empty message
    included, is reported as [EMPTY_MESSAGE] (with the rule text) and
    fails. *)
Theorem whitespace_message_is_empty_message (message : str) :
  whitespace_only message ->
  forall out,
    validate_commit_message U message out
    = (Ret false, out ++ report EMPTY_MESSAGE []).
Proof.
  intros H out. apply strip_falsy in H.
  unfold validate_commit_message. rewrite H. cbn [negb].
  now apply report_then_ret.
Qed.

(** C4.  Every message that begins with the literal [Merge ] prints
    the [MERGE] line and nothing else and succeeds, whatever follows
    the literal: neither the header nor the body is checked. *)
Theorem merge_message_succeeds (rest : str) :
  forall out,
    validate_commit_message U (text "Merge " ++ rest) out
    = (Ret true, out ++ report MERGE []).
Proof.
  intros out. unfold validate_commit_message.
  rewrite (strip_truthy (text "Merge " ++ rest) (ord "M"));
    [|now left|reflexivity].
  cbn [negb].
  rewrite merge_match, startswith_prefix.
  now apply report_then_ret.
Qed.

(** C7.  Every body that is not whitespace-only and whose first line
    (the text before its first newline, or all of it) is not empty is
    reported as [NO_BLANK_LINE_BEFORE_BODY] and fails. *)
Theorem body_without_blank_line_fails (body : str) :
  ~ whitespace_only body ->
  first_line body <> [] ->
  forall out,
    check_body body out
    = (Ret false, out ++ report NO_BLANK_LINE_BEFORE_BODY []).
Proof.
  intros Hws Hfl out. unfold check_body.
  destruct (truthy (strip body)) eqn:E.
  - cbn [negb]. rewrite split1_first.
    destruct (first_line body); [contradiction|]. cbn [truthy].
    now apply report_then_ret.
  - apply strip_falsy in E. contradiction.
Qed.

(** C10.  Every whitespace-only body passes at once: the check
    returns success and prints nothing, so no line of such a body is
    measured and [LINE_OVERLONG] cannot be reported, however long the
    body is. *)
Theorem whitespace_body_passes (body : str) :
  whitespace_only body ->
  forall out, check_body body out = (Ret true, out).
Proof.
  intros H out. apply strip_falsy in H.
  unfold check_body. now rewrite H.
Qed.

(** C2.  For every header that matches the grammar with a type
    keyword outside [TYPE_LIST] and that is at most [LINE_LIMIT]
    characters long, [check_header] prints the [WRONG_TYPE] diagnostic
    for that keyword and returns success; hence a message made of
    such a header (one line), a newline and a body accepted by
    [check_body] is validated: the call prints [WRONG_TYPE], then
    [VALIDATED], and returns success. *)
Theorem wrong_type_is_advisory (h : str) (m : Match) (ty : str) :
  re_match (HEADER_PATTERN U) h = Some m ->
  group m 3 = Some ty ->
  ~ In ty TYPE_LIST ->
  len h <= LINE_LIMIT ->
  (forall out,
      check_header U h out
      = (Ret true, out ++ report WRONG_TYPE [("type"%string, VStr ty)]))
  /\
  (forall body out0,
      ~ In NL h ->
      fst (check_body body out0) = Ret true ->
      forall out,
        validate_commit_message U (h ++ NL :: body) out
        = (Ret true,
           out ++ report WRONG_TYPE [("type"%string, VStr ty)]
               ++ report VALIDATED [])).
Proof.
  intros Hm Hty Hnot Hlen.
  assert (Hh : forall out,
             check_header U h out
             = (Ret true,
                out ++ report WRONG_TYPE [("type"%string, VStr ty)])).
  { intros out. unfold check_header.
    rewrite (header_match_strip _ _ _ Hm). cbn [negb].
    rewrite Hm, Hty. unfold in_type_list.
    destruct (in_dec str_eq_dec ty TYPE_LIST) as [Hin|_]; [contradiction|].
    cbn [negb]. unfold bind at 1.
    rewrite print_error_msg_run by reflexivity.
    apply N.ltb_ge in Hlen. rewrite Hlen. reflexivity. }
  split; [exact Hh|].
  intros body out0 Hnl Hbody out.
  assert (Hs : truthy (strip (h ++ NL :: body)) = true).
  { pose proof (header_match_strip _ _ _ Hm) as Hst.
    destruct (truthy (strip (h ++ NL :: body))) eqn:E; [reflexivity|].
    apply strip_falsy in E. unfold whitespace_only in E.
    rewrite forallb_app in E. apply andb_prop in E. destruct E as [E _].
    apply strip_falsy in E. rewrite E in Hst. discriminate. }
  assert (Hmerge : startswith (text "Merge ") (h ++ NL :: body) = false).
  { destruct (startswith (text "Merge ") (h ++ NL :: body)) eqn:E;
      [|reflexivity].
    apply startswith_before_newline in E.
    - rewrite (header_not_merge U _ E) in Hm. discriminate.
    - apply not_in_newline. reflexivity. }
  unfold validate_commit_message. rewrite Hs. cbn [negb].
  rewrite merge_match, Hmerge, (split1_app _ _ Hnl).
  unfold bind at 1, unpack2, ret at 1.
  unfold bind at 1. rewrite Hh. cbn [negb].
  unfold bind at 1. rewrite (check_body_true _ _ Hbody). cbn [negb].
  rewrite report_then_ret by reflexivity.
  now rewrite <- app_assoc.
Qed.

(** The header check once the grammar has matched. *)
Lemma check_header_matched (h : str) (m : Match) :
  re_match (HEADER_PATTERN U) h = Some m ->
  forall out,
    check_header U h out =
    if (LINE_LIMIT <? len h)
       && negb (startswith (text "fixup! ") h
                || startswith (text "squash! ") h
                || opt_eqb (group m 3) (text "revert")
                || opt_eqb (group m 3) (text "Revert"))
    then (Ret false, out ++ type_warning (group m 3) ++ overlong h)
    else (Ret true, out ++ type_warning (group m 3)).
Proof.
  intros Hm out. unfold check_header.
  rewrite (header_match_strip _ _ _ Hm). cbn [negb].
  rewrite Hm, (header_prefix_group _ _ _ Hm).
  assert (Hw : (if negb (in_type_list (group m 3))
                then print_error_msg WRONG_TYPE
                       [("type"%string, opt_value (group m 3))]
                else ret tt) out
               = (Ret tt, out ++ type_warning (group m 3))).
  { unfold type_warning. destruct (in_type_list (group m 3)); cbn [negb].
    - unfold ret. now rewrite app_nil_r.
    - now apply print_error_msg_run. }
  unfold bind at 1. rewrite Hw.
  destruct ((LINE_LIMIT <? len h) && _).
  - rewrite report_then_ret by reflexivity. now rewrite <- app_assoc.
  - reflexivity.
Qed.

(** C5.  For every header that matches the grammar and is longer than
    [LINE_LIMIT] characters, if its type is exactly [revert] or
    exactly [Revert], or it begins with [fixup! ] or [squash! ], the
    header check succeeds: the length branch is not taken, and the
    only line printed, if any, is the advisory [WRONG_TYPE]. *)
Theorem long_header_exempt (h : str) (m : Match) :
  re_match (HEADER_PATTERN U) h = Some m ->
  LINE_LIMIT < len h ->
  group m 3 = Some (text "revert") \/ group m 3 = Some (text "Revert") \/
  startswith (text "fixup! ") h = true \/
  startswith (text "squash! ") h = true ->
  forall out,
    check_header U h out = (Ret true, out ++ type_warning (group m 3)).
Proof.
  intros Hm Hlen Hex out. rewrite (check_header_matched _ _ Hm).
  destruct Hex as [E|[E|[E|E]]]; rewrite E;
    rewrite ?orb_true_r; simpl; now rewrite andb_false_r.
Qed.

(** C6.  For every header that matches the grammar, is longer than
    [LINE_LIMIT] characters and has no exemption (its type is neither
    [revert] nor [Revert] and it begins with neither prefix), the
    header check fails with [LINE_OVERLONG], whose [length] field is
    the number of characters of the header and whose [line] field is
    the header; an advisory [WRONG_TYPE] may come before it. *)
Theorem long_header_fails (h : str) (m : Match) :
  re_match (HEADER_PATTERN U) h = Some m ->
  LINE_LIMIT < len h ->
  group m 3 <> Some (text "revert") ->
  group m 3 <> Some (text "Revert") ->
  startswith (text "fixup! ") h = false ->
  startswith (text "squash! ") h = false ->
  forall out,
    check_header U h out
    = (Ret false,
       out ++ type_warning (group m 3)
           ++ report LINE_OVERLONG
                [("length"%string, VInt (N.of_nat (List.length h)));
                 ("line"%string, VStr h)]).
Proof.
  intros Hm Hlen Hr1 Hr2 Hf Hs out. rewrite (check_header_matched _ _ Hm).
  apply N.ltb_lt in Hlen. rewrite Hlen, Hf, Hs.
  assert (E : forall s, group m 3 <> Some s -> opt_eqb (group m 3) s = false).
  { intros s Hne. unfold opt_eqb. destruct (group m 3) as [t|]; [|reflexivity].
    destruct (str_eq_dec t s) as [->|]; [now elim Hne|reflexivity]. }
  rewrite (E _ Hr1), (E _ Hr2). reflexivity.
Qed.

(** C8, amended.  For every body that is not whitespace-only and
    begins with an empty first line, if some line of
    [body.splitlines()] is longer than [LINE_LIMIT], the body check
    fails with [LINE_OVERLONG] for the first such line, carrying that
    line and its number of characters, and prints nothing about any
    later line. *)
Theorem body_first_overlong_line (body : str) (pre post : list str)
        (l : str) :
  ~ whitespace_only body ->
  first_line body = [] ->
  splitlines body = pre ++ l :: post ->
  Forall (fun x => len x <= LINE_LIMIT) pre ->
  LINE_LIMIT < len l ->
  forall out,
    check_body body out
    = (Ret false,
       out ++ report LINE_OVERLONG
                [("length"%string, VInt (N.of_nat (List.length l)));
                 ("line"%string, VStr l)]).
Proof.
  intros Hws Hfl Hsplit Hpre Hl out. unfold check_body.
  destruct (truthy (strip body)) eqn:E.
  - cbn [negb]. rewrite split1_first, Hfl. cbn [truthy].
    rewrite Hsplit. now apply check_lines_first_overlong.
  - apply strip_falsy in E. contradiction.
Qed.

End Properties.

(** ** The properties at concrete messages *)

Lemma single_line_message_raises_witness :
  ~ whitespace_only (text "update stuff") /\
  startswith (text "Merge ") (text "update stuff") = false /\
  ~ In NL (text "update stuff") /\
  validate_commit_message ascii_table (text "update stuff") []
  = (Raise ValueError, []).
Proof.
  assert (H1 : ~ whitespace_only (text "update stuff"))
    by (intros H; vm_compute in H; discriminate H).
  assert (H2 : startswith (text "Merge ") (text "update stuff") = false)
    by reflexivity.
  assert (H3 : ~ In NL (text "update stuff"))
    by (apply not_in_newline; reflexivity).
  split; [exact H1|]. split; [exact H2|]. split; [exact H3|].
  exact (single_line_message_raises ascii_table _ H1 H2 H3 []).
Defined.

Lemma whitespace_message_is_empty_message_witness :
  whitespace_only [32; 9; NL; 32] /\
  validate_commit_message ascii_table [32; 9; NL; 32] []
  = (Ret false, report EMPTY_MESSAGE []).
Proof.
  assert (H1 : whitespace_only [32; 9; NL; 32]) by reflexivity.
  split; [exact H1|].
  exact (whitespace_message_is_empty_message ascii_table _ H1 []).
Defined.

Lemma body_without_blank_line_fails_witness :
  let body := text "non-blank body line immediately" in
  ~ whitespace_only body /\ first_line body <> [] /\
  check_body body [] = (Ret false, report NO_BLANK_LINE_BEFORE_BODY []).
Proof.
  intros body.
  assert (H1 : ~ whitespace_only body)
    by (intros H; vm_compute in H; discriminate H).
  assert (H2 : first_line body <> [])
    by (intros H; vm_compute in H; discriminate H).
  split; [exact H1|]. split; [exact H2|].
  exact (body_without_blank_line_fails body H1 H2 []).
Defined.

Lemma whitespace_body_passes_witness :
  let body := repeat (ord " ") 150 in
  whitespace_only body /\ LINE_LIMIT < len body /\
  check_body body [] = (Ret true, []).
Proof.
  intros body.
  assert (H1 : whitespace_only body) by reflexivity.
  split; [exact H1|]. split; [reflexivity|].
  exact (whitespace_body_passes body H1 []).
Defined.

Lemma wrong_type_is_advisory_witness :
  let h := text "foo: does something" in
  let m := {| m_end := 19;
              m_groups := [(1%nat, h); (5%nat, text "does something");
                           (3%nat, text "foo")] |} in
  let body := NL :: text "Closes #12" in
  re_match (HEADER_PATTERN ascii_table) h = Some m /\
  check_header ascii_table h []
  = (Ret true, report WRONG_TYPE [("type"%string, VStr (text "foo"))]) /\
  validate_commit_message ascii_table (h ++ NL :: body) []
  = (Ret true,
     report WRONG_TYPE [("type"%string, VStr (text "foo"))]
     ++ report VALIDATED []).
Proof.
  intros h m body.
  assert (Hm : re_match (HEADER_PATTERN ascii_table) h = Some m)
    by reflexivity.
  assert (Hty : group m 3 = Some (text "foo")) by reflexivity.
  assert (Hnot : ~ In (text "foo") TYPE_LIST).
  { intros H. destruct (in_dec str_eq_dec (text "foo") TYPE_LIST) eqn:E.
    - vm_compute in E. discriminate E.
    - contradiction. }
  assert (Hlen : len h <= LINE_LIMIT) by (vm_compute; discriminate).
  destruct (wrong_type_is_advisory ascii_table h m (text "foo")
              Hm Hty Hnot Hlen) as [Hh Hv].
  split; [exact Hm|]. split; [exact (Hh [])|].
  refine (Hv body [] _ _ []).
  - apply not_in_newline. reflexivity.
  - reflexivity.
Defined.

Lemma long_header_exempt_witness :
  let h := text "fixup! feat: " ++ repeat (ord "x") 100 in
  let m := {| m_end := 113;
              m_groups := [(1%nat, h); (5%nat, repeat (ord "x") 100);
                           (3%nat, text "feat"); (2%nat, text "fixup! ")] |} in
  re_match (HEADER_PATTERN ascii_table) h = Some m /\
  len h = 113 /\
  check_header ascii_table h [] = (Ret true, []).
Proof.
  intros h m.
  assert (Hm : re_match (HEADER_PATTERN ascii_table) h = Some m)
    by reflexivity.
  assert (Hlen : LINE_LIMIT < len h) by reflexivity.
  assert (Hex : group m 3 = Some (text "revert") \/
                group m 3 = Some (text "Revert") \/
                startswith (text "fixup! ") h = true \/
                startswith (text "squash! ") h = true)
    by (right; right; left; reflexivity).
  split; [exact Hm|]. split; [reflexivity|].
  exact (long_header_exempt ascii_table h m Hm Hlen Hex []).
Defined.

Lemma long_header_fails_witness :
  let h := text "feat: " ++ repeat (ord "x") 114 in
  let m := {| m_end := 120;
              m_groups := [(1%nat, h); (5%nat, repeat (ord "x") 114);
                           (3%nat, text "feat")] |} in
  re_match (HEADER_PATTERN ascii_table) h = Some m /\
  check_header ascii_table h []
  = (Ret false,
     report LINE_OVERLONG
       [("length"%string, VInt 120); ("line"%string, VStr h)]).
Proof.
  intros h m.
  assert (Hm : re_match (HEADER_PATTERN ascii_table) h = Some m)
    by reflexivity.
  assert (Hlen : LINE_LIMIT < len h) by reflexivity.
  assert (H1 : group m 3 <> Some (text "revert")) by discriminate.
  assert (H2 : group m 3 <> Some (text "Revert")) by discriminate.
  assert (H3 : startswith (text "fixup! ") h = false) by reflexivity.
  assert (H4 : startswith (text "squash! ") h = false) by reflexivity.
  split; [exact Hm|].
  exact (long_header_fails ascii_table h m Hm Hlen H1 H2 H3 H4 []).
Defined.

Lemma body_first_overlong_line_witness :
  let l := repeat (ord "x") 101 in
  let l' := repeat (ord "y") 102 in
  let body := NL :: l ++ NL :: l' in
  ~ whitespace_only body /\ first_line body = [] /\
  splitlines body = [[]; l; l'] /\
  check_body body []
  = (Ret false,
     report LINE_OVERLONG
       [("length"%string, VInt 101); ("line"%string, VStr l)]).
Proof.
  intros l l' body.
  assert (H1 : ~ whitespace_only body)
    by (intros H; vm_compute in H; discriminate H).
  assert (H2 : first_line body = []) by reflexivity.
  assert (H3 : splitlines body = [[]] ++ l :: [l']) by reflexivity.
  assert (H4 : Forall (fun x => len x <= LINE_LIMIT) [[]])
    by (repeat constructor; discriminate).
  assert (H5 : LINE_LIMIT < len l) by reflexivity.
  split; [exact H1|]. split; [exact H2|]. split; [exact H3|].
  exact (body_first_overlong_line body [[]] [l'] l H1 H2 H3 H4 H5 []).
Defined.

(** C8, as stated, fails when lines are what lies between newline
    characters.  The body below passes the blank-line check and its
    second such line has 121 characters, yet the body check succeeds and
    prints nothing: [splitlines] also breaks a line at the form feed, so
    the loop sees two lines of 60 characters. *)
Lemma newline_line_not_reported :
  let long := repeat (ord "x") 60 ++ [12] ++ repeat (ord "y") 60 in
  let body := NL :: long in
  ~ whitespace_only body /\ first_line body = [] /\
  newline_lines body = [[]; long] /\ len long = 121 /\
  splitlines body = [[]; repeat (ord "x") 60; repeat (ord "y") 60] /\
  check_body body [] = (Ret true, []).
Proof.
  intros long body.
  repeat split; try reflexivity.
  intros H. vm_compute in H. discriminate H.
Qed.

(** ** The matcher against the relation *)

Lemma skipn_prefix {A} (w r : list A) : skipn (List.length w) (w ++ r) = r.
Proof. induction w as [|a w IH]; simpl; auto. Qed.

Lemma firstn_prefix {A} (pos : nat) (w r : list A) :
  firstn (pos + List.length w - pos) (w ++ r) = w.
Proof.
  replace (pos + List.length w - pos)%nat with (List.length w) by lia.
  induction w as [|a w IH]; simpl; [reflexivity|]. now rewrite IH.
Qed.

(** A successful run consumed a word the pattern matches in that
    place, and handed the resulting captures to its continuation. *)
Lemma run_matches {R} (r : regex) :
  forall pos s c (k : cont R) x,
    run r pos s c k = Some x ->
    exists w s' c',
      s = w ++ s' /\ matches r pos s c w c' /\
      k (pos + List.length w)%nat s' c' = Some x.
Proof.
  induction r as [ | | |ch|p|r1 IH1 r2 IH2|r1 IH1 r2 IH2|r1 IH1|p|g r1 IH1];
    intros pos s c k x H; simpl in H.
  - exists [], s, c. simpl. now rewrite Nat.add_0_r.
  - destruct (Nat.eqb_spec pos 0); [|discriminate].
    exists [], s, c. simpl. now rewrite Nat.add_0_r.
  - exists [], s, c. simpl. rewrite Nat.add_0_r.
    destruct s as [|a [|b s]]; try discriminate; auto.
    destruct (N.eqb_spec a NL) as [->|]; [auto 6|discriminate].
  - destruct s as [|a s]; [discriminate|].
    destruct (N.eqb_spec a ch) as [->|]; [|discriminate].
    exists [ch], s, c. simpl. now rewrite Nat.add_1_r.
  - destruct s as [|a s]; [discriminate|].
    destruct (p a) eqn:Pa; [|discriminate].
    exists [a], s, c. simpl. rewrite Nat.add_1_r. repeat split; eauto.
  - destruct (IH1 _ _ _ _ _ H) as (w1 & s1 & c1 & -> & D1 & H1).
    destruct (IH2 _ _ _ _ _ H1) as (w2 & s2 & c2 & -> & D2 & H2).
    exists (w1 ++ w2), s2, c2.
    rewrite <- app_assoc, length_app, Nat.add_assoc.
    split; [reflexivity|]. split; [|exact H2].
    simpl. exists w1, w2, c1. rewrite skipn_prefix. auto.
  - destruct (run r1 pos s c k) eqn:E.
    + injection H as ->.
      destruct (IH1 _ _ _ _ _ E) as (w & s' & c' & -> & D & Hk).
      exists w, s', c'. simpl. auto.
    + destruct (IH2 _ _ _ _ _ H) as (w & s' & c' & -> & D & Hk).
      exists w, s', c'. simpl. auto.
  - destruct (run r1 pos s c k) eqn:E.
    + injection H as ->.
      destruct (IH1 _ _ _ _ _ E) as (w & s' & c' & -> & D & Hk).
      exists w, s', c'. simpl. auto.
    + exists [], s, c. simpl. rewrite Nat.add_0_r. auto.
  - destruct s as [|a s]; [discriminate|].
    destruct (p a) eqn:Pa; [|discriminate].
    destruct (star_inv _ _ _ _ _ _ H) as (w & s' & -> & Hw & Hk).
    exists (a :: w), s', c. simpl. rewrite Pa, Hw.
    rewrite Nat.add_succ_r. repeat split; auto. discriminate.
  - destruct (IH1 _ _ _ _ _ H) as (w & s' & c' & -> & D & Hk).
    rewrite firstn_prefix in Hk.
    exists w, s', ((g, w) :: c'). simpl. eauto.
Qed.

Lemma matches_lits (p : str) :
  forall pos s c w c',
    matches (lits p) pos s c w c' -> w = p /\ c' = c.
Proof.
  induction p as [|a p IH]; simpl; intros pos s c w c' H.
  - exact H.
  - destruct H as (w1 & w2 & c1 & -> & [-> ->] & H).
    apply IH in H. destruct H as [-> ->]. auto.
Qed.

(** Greedy repetition in the forward direction: when the characters
    of the class stop after [w], the longest attempt is the first one
    made, and its success is the result. *)
Lemma star_longest {R} (p : char -> bool) (k : cont R) (w s' : str) :
  forallb p w = true ->
  match s' with [] => true | x :: _ => negb (p x) end = true ->
  forall pos c x,
    k (pos + List.length w)%nat s' c = Some x ->
    star p k pos (w ++ s') c = Some x.
Proof.
  intros Hw Hs'. induction w as [|a w IH]; intros pos c x Hk; simpl in *.
  - rewrite Nat.add_0_r in Hk.
    destruct s' as [|b s']; simpl; [exact Hk|].
    apply negb_true_iff in Hs'. now rewrite Hs'.
  - apply andb_prop in Hw. destruct Hw as [Pa Hw]. rewrite Pa.
    rewrite (IH Hw (S pos) c x); [reflexivity|].
    now rewrite Nat.add_succ_r in Hk.
Qed.

Lemma plus_longest {R} (p : char -> bool) (k : cont R) (w s' : str) :
  truthy w = true ->
  forallb p w = true ->
  match s' with [] => true | x :: _ => negb (p x) end = true ->
  forall pos c x,
    k (pos + List.length w)%nat s' c = Some x ->
    run (Plus p) pos (w ++ s') c k = Some x.
Proof.
  intros Hne Hw Hs' pos c x Hk.
  destruct w as [|a w]; [discriminate|]. simpl in *.
  apply andb_prop in Hw. destruct Hw as [Pa Hw]. rewrite Pa.
  apply star_longest; auto. now rewrite Nat.add_succ_r in Hk.
Qed.

(** ** The header grammar, both ways *)

Section Grammar.

Variable U : char -> bool.

(** A header the pattern matches is a well-formed header written from
    its parts, and the groups of the match are those parts. *)
Lemma grammar_sound (h : str) (m : Match) :
  re_match (HEADER_PATTERN U) h = Some m ->
  exists p tail,
    well_formed U p = true /\
    h = render_header p ++ tail /\ line_end tail = true /\
    group m 1 = Some (render_header p) /\
    group m 2 = hp_prefix p /\
    group m 3 = Some (hp_type p) /\
    group m 4 = hp_scope p /\
    group m 5 = Some (hp_subject p).
Proof.
  intros H. apply run_matches in H.
  destruct H as (w & s' & c' & Hh & D & H). injection H as <-.
  unfold HEADER_PATTERN in D. cbn [matches] in D.
  destruct D as (w0 & w1 & c0 & -> & (_ & -> & ->) & D).
  destruct D as (line & fin & c1 & -> & (cg & D & ->) & Hfin).
  destruct D as (pre & rest & cpre & -> & Hpre & ty & rest2 & c3 & -> &
                 (? & (Hty1 & Hty2 & ->) & ->) &
                 scp & rest3 & c4 & -> & Hscope &
                 colon & subj & c5 & -> & Hlits &
                 (? & (Hs1 & Hs2 & ->) & ->)).
  apply matches_lits in Hlits. destruct Hlits as [-> ->].
  assert (A : exists po,
             is_prefix_keyword po = true /\ pre = opt_text po /\
             cpre = match po with Some x => [(2%nat, x)] | None => [] end).
  { destruct Hpre as [[-> ->]|(cx & [Hx|Hx] & ->)].
    - now exists None.
    - apply matches_lits in Hx. destruct Hx as [-> ->].
      now exists (Some (text "fixup! ")).
    - apply matches_lits in Hx. destruct Hx as [-> ->].
      now exists (Some (text "squash! ")). }
  destruct A as (po & Hpo & -> & ->).
  assert (B : exists so,
             scp = match so with
                   | None => []
                   | Some sc => ord "(" :: sc ++ [ord ")"]
                   end /\
             c4 = match so with Some x => [(4%nat, x)] | None => [] end
                  ++ (3%nat, ty)
                  :: match po with Some x => [(2%nat, x)] | None => [] end /\
             match so with
             | None => true
             | Some sc => truthy sc && forallb scope_char sc
             end = true).
  { destruct Hscope as [[-> ->]|(w2 & w3 & cx & -> & [-> ->] & w4 & w5 & cy &
                                 -> & (cz & (Hz1 & Hz2 & ->) & ->) & -> & ->)].
    - now exists None.
    - exists (Some w4). simpl. rewrite Hz2.
      destruct w4; [contradiction|]. auto. }
  destruct B as (so & -> & -> & Hso).
  subst h.
  assert (C : line_end (fin ++ s') = true).
  { destruct Hfin as [[-> _]|(He & -> & _)]; [reflexivity|].
    simpl in He. rewrite app_nil_r, skipn_prefix in He. simpl.
    destruct He as [->| ->]; reflexivity. }
  exists {| hp_prefix := po; hp_type := ty; hp_scope := so;
            hp_subject := subj |}, (fin ++ s').
  assert (Hc' : c' = (1%nat, render_header
                               {| hp_prefix := po; hp_type := ty;
                                  hp_scope := so; hp_subject := subj |})
                     :: (5%nat, subj)
                     :: match so with Some x => [(4%nat, x)] | None => [] end
                     ++ (3%nat, ty)
                     :: match po with Some x => [(2%nat, x)] | None => [] end).
  { destruct Hfin as [[_ ->]|(_ & _ & ->)]; reflexivity. }
  unfold well_formed, group, render_header. cbn [hp_prefix hp_type hp_scope
    hp_subject m_groups]. rewrite Hc'. unfold render_header.
  cbn [hp_prefix hp_type hp_scope hp_subject].
  split.
  { rewrite Hpo, Hty2, Hs2.
    destruct ty; [contradiction|]. destruct subj; [contradiction|].
    destruct so; simpl in *; [rewrite Hso|]; reflexivity. }
  split.
  { simpl. now rewrite <- !app_assoc. }
  split; [exact C|].
  destruct po, so; simpl; auto.
Qed.

Lemma line_end_stops_dot (tail : str) :
  line_end tail = true ->
  match tail with [] => true | x :: _ => negb (dot x) end = true.
Proof.
  destruct tail as [|x t]; simpl; [reflexivity|].
  intros H. unfold dot. now rewrite H.
Qed.

Lemma run_cat {R} (r1 r2 : regex) pos s c (k : cont R) :
  run (Cat r1 r2) pos s c k
  = run r1 pos s c (fun pos' s' c' => run r2 pos' s' c' k).
Proof. reflexivity. Qed.

Lemma run_group {R} (n : nat) (r : regex) pos s c (k : cont R) :
  run (Group n r) pos s c k
  = run r pos s c
        (fun pos' s' c' => k pos' s' ((n, firstn (pos' - pos) s) :: c')).
Proof. reflexivity. Qed.

Lemma run_opt {R} (r : regex) pos s c (k : cont R) :
  run (Opt r) pos s c k
  = match run r pos s c k with Some x => Some x | None => k pos s c end.
Proof. reflexivity. Qed.

Lemma run_lit_same {R} (ch : char) pos s c (k : cont R) :
  run (Lit ch) pos (ch :: s) c k = k (S pos) s c.
Proof. simpl. now rewrite N.eqb_refl. Qed.

Lemma run_lit_other {R} (ch x : char) pos s c (k : cont R) :
  (x =? ch) = false -> run (Lit ch) pos (x :: s) c k = None.
Proof. intros H. simpl. now rewrite H. Qed.

(** The subject and what follows it. *)
Lemma subject_forward {R} (k : cont R) (subj tail : str) :
  truthy subj = true -> forallb dot subj = true -> line_end tail = true ->
  forall pos c x,
    k (pos + List.length (text ": " ++ subj))%nat tail ((5%nat, subj) :: c)
    = Some x ->
    run (lits (text ": ") +> Group 5 (Plus dot))%re pos
        (text ": " ++ subj ++ tail) c k = Some x.
Proof.
  intros Hne Hd Ht pos c x Hk. rewrite run_cat, run_lits.
  rewrite startswith_prefix, skipn_prefix, run_group.
  apply plus_longest; auto using line_end_stops_dot.
  rewrite firstn_prefix. rewrite length_app, Nat.add_assoc in Hk. exact Hk.
Qed.

(** The type, the optional scope, the colon and the subject. *)
Lemma type_forward {R} (k : cont R) (ty : str) (so : option str)
      (subj tail : str) :
  truthy ty = true -> forallb (word U) ty = true ->
  match so with
  | None => true
  | Some sc => truthy sc && forallb scope_char sc
  end = true ->
  truthy subj = true -> forallb dot subj = true -> line_end tail = true ->
  forall pos c x,
    k (pos + List.length
               (ty ++ match so with
                      | None => []
                      | Some sc => ord "(" :: sc ++ [ord ")"]
                      end ++ text ": " ++ subj))%nat
      tail
      ((5%nat, subj)
       :: match so with Some sc => [(4%nat, sc)] | None => [] end
       ++ (3%nat, ty) :: c) = Some x ->
    run (Group 3 (Plus (word U))
         +> Opt (Lit (ord "(") +> Group 4 (Plus scope_char) +> Lit (ord ")"))
         +> lits (text ": ")
         +> Group 5 (Plus dot))%re pos
        (ty ++ match so with
               | None => []
               | Some sc => ord "(" :: sc ++ [ord ")"]
               end ++ text ": " ++ subj ++ tail) c k = Some x.
Proof.
  intros Hty1 Hty2 Hso Hs1 Hs2 Ht pos c x Hk.
  rewrite run_cat, run_group. apply plus_longest; auto.
  { destruct so; reflexivity. }
  rewrite firstn_prefix, run_cat, run_opt.
  destruct so as [sc|].
  - apply andb_prop in Hso. destruct Hso as [Hsc1 Hsc2].
    cbn [app]. rewrite <- app_assoc. cbn [app].
    rewrite run_cat, run_lit_same, run_cat, run_group.
    rewrite (plus_longest scope_char _ sc (ord ")" :: text ": " ++ subj ++ tail)
               Hsc1 Hsc2 eq_refl _ _ x); [reflexivity|].
    rewrite firstn_prefix, run_lit_same.
    apply (subject_forward k subj tail Hs1 Hs2 Ht).
    rewrite <- Hk. f_equal.
    repeat (rewrite length_app; cbn [List.length]). lia.
  - cbn [app]. rewrite run_cat.
    change (text ": " ++ subj ++ tail)
      with (ord ":" :: (ord " " :: subj ++ tail)) at 1.
    rewrite run_lit_other by reflexivity.
    apply (subject_forward k subj tail Hs1 Hs2 Ht).
    rewrite <- Hk. f_equal.
    repeat (rewrite length_app; cbn [List.length]). lia.
Qed.
Lemma startswith_before (p : str) (c : char) :
  ~ In c p ->
  forall w rest, startswith p (w ++ c :: rest) = true -> startswith p w = true.
Proof.
  induction p as [|a p IH]; intros Hc w rest H; simpl.
  - reflexivity.
  - destruct w as [|b w]; simpl in H.
    + apply andb_prop in H. destruct H as [H _].
      apply N.eqb_eq in H. exfalso. apply Hc. now left.
    + apply andb_prop in H. destruct H as [H1 H2]. simpl. rewrite H1. simpl.
      apply (IH (fun Hin => Hc (or_intror Hin)) w rest H2).
Qed.

Lemma startswith_forallb (q : char -> bool) (p : str) :
  forall w, startswith p w = true -> forallb q w = true -> forallb q p = true.
Proof.
  induction p as [|a p IH]; intros w H Hq; simpl.
  - reflexivity.
  - destruct w as [|b w]; simpl in H; [discriminate|].
    apply andb_prop in H. destruct H as [H1 H2]. apply N.eqb_eq in H1. subst b.
    simpl in Hq. apply andb_prop in Hq. destruct Hq as [Hq1 Hq2].
    rewrite Hq1. simpl. now apply (IH w).
Qed.

(** A type written in word characters and followed by [(] or [:] does
    not begin with [fixup! ] or [squash! ]: the exclamation mark is not
    a word character. *)
Lemma type_is_no_prefix (kw ty rest : str) (c : char) :
  forallb (word U) kw = false -> ~ In c kw ->
  forallb (word U) ty = true ->
  startswith kw (ty ++ c :: rest) = false.
Proof.
  intros Hkw Hc Hty.
  destruct (startswith kw (ty ++ c :: rest)) eqn:E; [|reflexivity].
  apply startswith_before in E; [|exact Hc].
  rewrite (startswith_forallb _ _ _ E Hty) in Hkw. discriminate.
Qed.

Lemma run_bol {R} s c (k : cont R) : run Bol 0 s c k = k 0%nat s c.
Proof. reflexivity. Qed.

Lemma run_alt {R} (r1 r2 : regex) pos s c (k : cont R) :
  run (Alt r1 r2) pos s c k
  = match run r1 pos s c k with
    | Some x => Some x
    | None => run r2 pos s c k
    end.
Proof. reflexivity. Qed.

Lemma firstn_whole {A} (w r : list A) (n : nat) :
  n = List.length w -> firstn (n - 0) (w ++ r) = w.
Proof.
  intros ->. rewrite Nat.sub_0_r.
  induction w as [|a w IH]; simpl; [reflexivity|]. now rewrite IH.
Qed.

(** Rewrite the run of the goal that the equation [He] is about. *)
Ltac plug_run He :=
  match goal with
  | |- context [@run ?R ?r ?p ?s ?c ?k] =>
      let HX := fresh "HX" in
      pose proof (He : @run R r p s c k = _) as HX; rewrite HX
  end.

(** From the type to the end of the match, after the text [pre]. *)
Lemma header_tail_forward (pre ty : str) (so : option str)
      (subj tail : str) (c : captures) :
  truthy ty = true -> forallb (word U) ty = true ->
  match so with
  | None => true
  | Some sc => truthy sc && forallb scope_char sc
  end = true ->
  truthy subj = true -> forallb dot subj = true -> line_end tail = true ->
  exists e,
    run (Group 3 (Plus (word U))
         +> Opt (Lit (ord "(") +> Group 4 (Plus scope_char) +> Lit (ord ")"))
         +> lits (text ": ")
         +> Group 5 (Plus dot))%re (List.length pre)
        (ty ++ match so with
               | None => []
               | Some sc => ord "(" :: sc ++ [ord ")"]
               end ++ text ": " ++ subj ++ tail) c
        (fun pos' s' c' =>
           run (Lit NL <|> Eol)%re pos' s'
               ((1%nat,
                 firstn (pos' - 0)
                        (pre ++ ty ++ match so with
                                      | None => []
                                      | Some sc => ord "(" :: sc ++ [ord ")"]
                                      end ++ text ": " ++ subj ++ tail))
                :: c')
               (fun pos _ c => Some {| m_end := pos; m_groups := c |}))
    = Some {| m_end := e;
              m_groups :=
                (1%nat, pre ++ ty ++ match so with
                                     | None => []
                                     | Some sc => ord "(" :: sc ++ [ord ")"]
                                     end ++ text ": " ++ subj)
                :: (5%nat, subj)
                :: match so with Some sc => [(4%nat, sc)] | None => [] end
                ++ (3%nat, ty) :: c |}.
Proof.
  intros Hty1 Hty2 Hso Hs1 Hs2 Ht.
  set (sp := match so with
             | None => []
             | Some sc => ord "(" :: sc ++ [ord ")"]
             end).
  assert (F : firstn (List.length pre
                      + List.length (ty ++ sp ++ text ": " ++ subj) - 0)
                     (pre ++ ty ++ sp ++ text ": " ++ subj ++ tail)
              = pre ++ ty ++ sp ++ text ": " ++ subj).
  { replace (pre ++ ty ++ sp ++ text ": " ++ subj ++ tail)
      with ((pre ++ ty ++ sp ++ text ": " ++ subj) ++ tail)
      by (now rewrite <- !app_assoc).
    apply firstn_whole. symmetry. apply length_app. }
  destruct tail as [|x t].
  - eexists. apply type_forward; auto.
    rewrite run_alt. fold sp. rewrite F. reflexivity.
  - simpl in Ht. apply N.eqb_eq in Ht. subst x.
    eexists. apply type_forward; auto.
    rewrite run_alt, run_lit_same. fold sp. rewrite F. reflexivity.
Qed.

(** Every well-formed header is matched, with its parts as groups. *)
Lemma grammar_complete (p : header_parts) (tail : str) :
  well_formed U p = true ->
  line_end tail = true ->
  exists m,
    re_match (HEADER_PATTERN U) (render_header p ++ tail) = Some m /\
    group m 1 = Some (render_header p) /\
    group m 2 = hp_prefix p /\
    group m 3 = Some (hp_type p) /\
    group m 4 = hp_scope p /\
    group m 5 = Some (hp_subject p).
Proof.
  destruct p as [po ty so subj]. unfold well_formed, render_header.
  cbn [hp_prefix hp_type hp_scope hp_subject].
  intros Hwf Ht.
  repeat (apply andb_prop in Hwf; destruct Hwf as [Hwf ?]).
  unfold re_match, HEADER_PATTERN.
  rewrite run_cat, run_bol, run_cat, run_group, run_cat, run_opt, run_group,
    run_alt, !run_lits.
  rewrite <- !app_assoc.
  destruct po as [kw|]; cbn [opt_text app].
  - unfold is_prefix_keyword in Hwf.
    destruct (str_eq_dec kw (text "fixup! ")) as [->|_];
      [|destruct (str_eq_dec kw (text "squash! ")) as [->|_];
        [|discriminate]].
    + rewrite startswith_prefix, skipn_prefix.
      destruct (header_tail_forward (text "fixup! ") ty so subj tail
                  [(2%nat, text "fixup! ")]) as [e He]; auto.
      rewrite (firstn_prefix 0 (text "fixup! ")).
      eexists. split.
      * plug_run He. reflexivity.
      * unfold group. destruct so; simpl; auto.
    + replace (startswith (text "fixup! ") _) with false by reflexivity.
      rewrite startswith_prefix, skipn_prefix.
      destruct (header_tail_forward (text "squash! ") ty so subj tail
                  [(2%nat, text "squash! ")]) as [e He]; auto.
      rewrite (firstn_prefix 0 (text "squash! ")).
      eexists. split.
      * plug_run He. reflexivity.
      * unfold group. destruct so; simpl; auto.
  - assert (Hk : forall kw,
               forallb (word U) kw = false ->
               ~ In (ord "(") kw -> ~ In (ord ":") kw ->
               startswith kw (ty ++ match so with
                                    | None => []
                                    | Some sc => ord "(" :: sc ++ [ord ")"]
                                    end ++ text ": " ++ subj ++ tail) = false).
    { intros kw Hkw Hp Hc. destruct so; cbn [app text].
      - now apply type_is_no_prefix.
      - now apply type_is_no_prefix. }
    rewrite !Hk;
      try reflexivity;
      try (intros Hin; simpl in Hin;
           repeat (destruct Hin as [Hin|Hin]; [discriminate Hin|]);
           exact Hin).
    destruct (header_tail_forward [] ty so subj tail []) as [e He]; auto.
    eexists. split.
    + plug_run He. reflexivity.
    + unfold group. destruct so; simpl; auto.
Qed.

Lemma strip_truthy_iff (s : str) :
  truthy (strip s) = negb (forallb isspace s).
Proof.
  destruct (truthy (strip s)) eqn:E.
  - destruct (forallb isspace s) eqn:F; [|reflexivity].
    apply strip_falsy in F. rewrite F in E. discriminate.
  - apply strip_falsy in E. unfold whitespace_only in E. now rewrite E.
Qed.

(** The header check, branch by branch. *)
Lemma check_header_cases (h : str) (out : list printed) :
  check_header U h out =
  if forallb isspace h then (Ret false, out ++ report EMPTY_HEADER [])
  else
    match re_match (HEADER_PATTERN U) h with
    | None =>
        (Ret false,
         out ++ report BAD_HEADER_FORMAT [("header"%string, VStr h)])
    | Some m =>
        if (LINE_LIMIT <? len h)
           && negb (startswith (text "fixup! ") h
                    || startswith (text "squash! ") h
                    || opt_eqb (group m 3) (text "revert")
                    || opt_eqb (group m 3) (text "Revert"))
        then (Ret false, out ++ type_warning (group m 3) ++ overlong h)
        else (Ret true, out ++ type_warning (group m 3))
    end.
Proof.
  destruct (re_match (HEADER_PATTERN U) h) as [m|] eqn:Hm.
  - rewrite (check_header_matched _ _ _ Hm).
    pose proof (header_match_strip _ _ _ Hm) as Hs.
    rewrite strip_truthy_iff in Hs. apply negb_true_iff in Hs.
    now rewrite Hs.
  - unfold check_header. rewrite strip_truthy_iff, negb_involutive, Hm.
    destruct (forallb isspace h); now rewrite report_then_ret.
Qed.

(** The header check on a well-formed header. *)
Lemma check_header_parts (p : header_parts) (out : list printed) :
  well_formed U p = true ->
  check_header U (render_header p) out =
  if length_ok p
  then (Ret true, out ++ type_warning (Some (hp_type p)))
  else (Ret false,
        out ++ type_warning (Some (hp_type p)) ++ overlong (render_header p)).
Proof.
  intros Hwf.
  destruct (grammar_complete p [] Hwf eq_refl)
    as (m & Hm & _ & G2 & G3 & _).
  rewrite app_nil_r in Hm.
  rewrite (check_header_matched _ _ _ Hm), G3.
  rewrite <- (header_prefix_group _ _ _ Hm), G2.
  unfold length_ok, opt_eqb.
  destruct (LINE_LIMIT <? len (render_header p)),
    (truthy_opt (hp_prefix p)),
    (str_eq_dec (hp_type p) (text "revert")),
    (str_eq_dec (hp_type p) (text "Revert")); reflexivity.
Qed.

End Grammar.

(** ** The body check and the whole validation, branch by branch *)

Lemma check_lines_find (lines : list str) (out : list printed) :
  check_lines lines out =
  match find (fun l => LINE_LIMIT <? len l) lines with
  | Some l => (Ret false, out ++ overlong l)
  | None => (Ret true, out)
  end.
Proof.
  induction lines as [|l lines IH]; simpl.
  - reflexivity.
  - destruct (LINE_LIMIT <? len l).
    + now apply report_then_ret.
    + exact IH.
Qed.

Lemma check_body_cases (body : str) (out : list printed) :
  check_body body out =
  if forallb isspace body then (Ret true, out)
  else if truthy (first_line body)
       then (Ret false, out ++ report NO_BLANK_LINE_BEFORE_BODY [])
       else match find (fun l => LINE_LIMIT <? len l) (splitlines body) with
            | Some l => (Ret false, out ++ overlong l)
            | None => (Ret true, out)
            end.
Proof.
  unfold check_body. rewrite strip_truthy_iff, negb_involutive, split1_first.
  destruct (forallb isspace body); [reflexivity|].
  destruct (truthy (first_line body)).
  - now apply report_then_ret.
  - apply check_lines_find.
Qed.

Lemma find_none_forallb {A} (f : A -> bool) (l : list A) :
  find f l = None <-> forallb (fun x => negb (f x)) l = true.
Proof.
  induction l as [|a l IH]; simpl.
  - tauto.
  - destruct (f a); simpl; [split; discriminate|exact IH].
Qed.

Lemma find_some_long (l : str) (lines : list str) :
  find (fun l => LINE_LIMIT <? len l) lines = Some l ->
  forallb (fun x => negb (LINE_LIMIT <? len x)) lines = false.
Proof.
  intros H. destruct (forallb _ lines) eqn:E; [|reflexivity].
  apply find_none_forallb in E. rewrite E in H. discriminate.
Qed.

(** The first newline of a string that has one. *)
Lemma first_newline (s : str) :
  In NL s -> exists h b, s = h ++ NL :: b /\ ~ In NL h.
Proof.
  induction s as [|c s IH]; intros H; [contradiction|].
  destruct (N.eq_dec c NL) as [->|Hc].
  - exists [], s. auto.
  - destruct H as [H|H]; [contradiction|].
    destruct (IH H) as (h & b & -> & Hh).
    exists (c :: h), b. split; [reflexivity|].
    intros [E|E]; [now apply Hc|now apply Hh].
Qed.

Section Whole.

Variable U : char -> bool.

(** The validation of a message that is not blank, is no merge and
    has a first line [h] and a rest [b]. *)
Lemma validate_lines (h b : str) (out : list printed) :
  forallb isspace (h ++ NL :: b) = false ->
  startswith (text "Merge ") (h ++ NL :: b) = false ->
  ~ In NL h ->
  validate_commit_message U (h ++ NL :: b) out =
  match check_header U h out with
  | (Ret true, o1) =>
      match check_body b o1 with
      | (Ret true, o2) => (Ret true, o2 ++ report VALIDATED [])
      | (Ret false, o2) => (Ret false, o2)
      | (Raise e, o2) => (Raise e, o2)
      end
  | (Ret false, o1) => (Ret false, o1)
  | (Raise e, o1) => (Raise e, o1)
  end.
Proof.
  intros Hws Hm Hnl. unfold validate_commit_message.
  rewrite strip_truthy_iff, Hws. cbn [negb].
  rewrite merge_match, Hm, (split1_app _ _ Hnl).
  unfold bind at 1, unpack2, ret at 1. unfold bind at 1.
  destruct (check_header U h out) as [[[|]|e] o1]; cbn [negb]; try reflexivity.
  unfold bind at 1.
  destruct (check_body b o1) as [[[|]|e] o2]; cbn [negb]; reflexivity.
Qed.

Lemma validate_blank (m : str) (out : list printed) :
  forallb isspace m = true ->
  validate_commit_message U m out
  = (Ret false, out ++ report EMPTY_MESSAGE []).
Proof.
  intros H. unfold validate_commit_message.
  rewrite strip_truthy_iff, H. cbn [negb]. now apply report_then_ret.
Qed.

Lemma validate_merge (m : str) (out : list printed) :
  forallb isspace m = false ->
  startswith (text "Merge ") m = true ->
  validate_commit_message U m out = (Ret true, out ++ report MERGE []).
Proof.
  intros H Hm. unfold validate_commit_message.
  rewrite strip_truthy_iff, H. cbn [negb]. rewrite merge_match, Hm.
  now apply report_then_ret.
Qed.

Lemma validate_one_line (m : str) (out : list printed) :
  forallb isspace m = false ->
  startswith (text "Merge ") m = false ->
  ~ In NL m ->
  validate_commit_message U m out = (Raise ValueError, out).
Proof.
  intros H Hm Hnl. unfold validate_commit_message.
  rewrite strip_truthy_iff, H. cbn [negb].
  now rewrite merge_match, Hm, split1_no_newline.
Qed.

End Whole.

(** ** Lines *)

Lemma splitlines_from_clean (n : nat) :
  forall s cur,
    (List.length s <= n)%nat ->
    forallb (fun c => negb (islinebreak c)) cur = true ->
    Forall (fun l => forallb (fun c => negb (islinebreak c)) l = true)
           (splitlines_from cur s).
Proof.
  induction n as [|n IH]; intros s cur Hn Hcur.
  - destruct s; [|simpl in Hn; lia]. simpl.
    destruct cur; constructor; [|constructor]. now rewrite forallb_rev.
  - destruct s as [|c s]; simpl.
    + destruct cur; constructor; [|constructor]. now rewrite forallb_rev.
    + simpl in Hn. destruct (islinebreak c) eqn:Hc.
      * constructor; [now rewrite forallb_rev|].
        destruct (c =? 13); [|apply IH; [lia|reflexivity]].
        destruct s as [|d s']; [apply IH; [lia|reflexivity]|].
        simpl in Hn.
        destruct (d =? 10); apply IH; simpl; try lia; reflexivity.
      * apply IH; [lia|]. simpl. now rewrite Hc.
Qed.

Lemma split_nonempty (n : nat) (s : str) : split NL n s <> [].
Proof.
  destruct n, s as [|c s]; simpl; try discriminate.
  destruct (c =? NL); [discriminate|].
  destruct (split NL (S n) s); discriminate.
Qed.

Lemma drop_final_empty_cons (l : str) (ls : list str) :
  ls <> [] -> drop_final_empty (l :: ls) = l :: drop_final_empty ls.
Proof. destruct ls; [contradiction|reflexivity]. Qed.

Lemma drop_final_empty_app (pre post : list str) (l : str) :
  l <> [] ->
  drop_final_empty (pre ++ l :: post) = pre ++ l :: drop_final_empty post.
Proof.
  intros Hl. induction pre as [|x pre IH]; simpl app.
  - destruct post; [destruct l; [contradiction|reflexivity]|reflexivity].
  - rewrite drop_final_empty_cons, IH; [reflexivity|].
    destruct pre; discriminate.
Qed.

(** With no line boundary but the newline, [splitlines] closes a line
    exactly where [split] does, and leaves out a final empty line. *)
Lemma splitlines_from_split (s : str) :
  only_newline_breaks s ->
  forall cur n,
    (List.length s < n)%nat ->
    exists l ls,
      split NL n s = l :: ls /\
      splitlines_from cur s = drop_final_empty ((rev cur ++ l) :: ls).
Proof.
  unfold only_newline_breaks.
  induction s as [|c s IH]; intros Hs cur n Hn.
  - destruct n; [lia|]. exists [], []. split; [reflexivity|].
    simpl. rewrite app_nil_r. destruct cur as [|a cur]; [reflexivity|].
    simpl. destruct (rev cur ++ [a]) eqn:E; [|reflexivity].
    destruct (rev cur); discriminate.
  - destruct n as [|n]; [lia|]. simpl in Hn.
    simpl in Hs. apply andb_prop in Hs. destruct Hs as [Hc Hs].
    simpl. destruct (N.eqb_spec c NL) as [->|Hne].
    + exists [], (split NL n s). split; [reflexivity|].
      change (islinebreak NL) with true. cbv iota.
      change (NL =? 13) with false. cbv iota.
      destruct (IH Hs [] n) as (l & ls & E & ->); [lia|].
      rewrite E, app_nil_r. reflexivity.
    + rewrite orb_false_r in Hc. apply negb_true_iff in Hc. rewrite Hc.
      destruct (IH Hs (c :: cur) (S n)) as (l & ls & E & ->); [lia|].
      rewrite E. exists (c :: l), ls. split; [reflexivity|].
      simpl. now rewrite <- app_assoc.
Qed.

(** ** Further properties of the validator *)

Section More.

Variable U : char -> bool.

(** X1.  Soundness of the header grammar: a header that
    [HEADER_PATTERN] matches is a well-formed header written from its
    parts (optional prefix, type, optional scope, subject), followed by
    nothing or by a newline and anything, and groups 1 to 5 of the
    match are the whole header and those four parts. *)
Theorem header_match_parts (h : str) (m : Match) :
  re_match (HEADER_PATTERN U) h = Some m ->
  exists p tail,
    well_formed U p = true /\
    h = render_header p ++ tail /\ line_end tail = true /\
    group m 1 = Some (render_header p) /\
    group m 2 = hp_prefix p /\
    group m 3 = Some (hp_type p) /\
    group m 4 = hp_scope p /\
    group m 5 = Some (hp_subject p).
Proof. apply grammar_sound. Qed.

(** X2.  Completeness of the header grammar: every well-formed header,
    followed by nothing or by a newline and anything, is matched by
    [HEADER_PATTERN], and groups 1 to 5 of the match are the whole
    header and its four parts. *)
Theorem header_parts_match (p : header_parts) (tail : str) :
  well_formed U p = true ->
  line_end tail = true ->
  exists m,
    re_match (HEADER_PATTERN U) (render_header p ++ tail) = Some m /\
    group m 1 = Some (render_header p) /\
    group m 2 = hp_prefix p /\
    group m 3 = Some (hp_type p) /\
    group m 4 = hp_scope p /\
    group m 5 = Some (hp_subject p).
Proof. apply grammar_complete. Qed.

(** X3.  On a well-formed header the header check never reports a
    format error: it prints [WRONG_TYPE] exactly when the type is not
    in [TYPE_LIST], and it succeeds exactly when the header is at most
    [LINE_LIMIT] characters long or carries a prefix or has the type
    [revert] or [Revert]; otherwise it fails with [LINE_OVERLONG]. *)
Theorem well_formed_header_checked (p : header_parts) (out : list printed) :
  well_formed U p = true ->
  check_header U (render_header p) out =
  (Ret (length_ok p),
   out
   ++ (if in_dec str_eq_dec (hp_type p) TYPE_LIST then []
       else report WRONG_TYPE [("type"%string, VStr (hp_type p))])
   ++ (if length_ok p then []
       else report LINE_OVERLONG
              [("length"%string, VInt (len (render_header p)));
               ("line"%string, VStr (render_header p))])).
Proof.
  intros Hwf. rewrite (check_header_parts U p out Hwf).
  unfold type_warning, in_type_list, opt_value.
  destruct (length_ok p), (in_dec str_eq_dec (hp_type p) TYPE_LIST);
    cbn [negb app]; rewrite ?app_nil_r; reflexivity.
Qed.

(** X4.  The header check reports [BAD_HEADER_FORMAT] exactly for the
    headers that are not blank and are not a well-formed header
    followed by nothing or by a newline. *)
Theorem bad_header_format_iff (h : str) (out : list printed) :
  check_header U h out
  = (Ret false, out ++ report BAD_HEADER_FORMAT [("header"%string, VStr h)])
  <->
  ~ whitespace_only h /\
  ~ exists p tail,
      well_formed U p = true /\ line_end tail = true /\
      h = render_header p ++ tail.
Proof.
  rewrite check_header_cases. unfold whitespace_only. split.
  - intros H. destruct (forallb isspace h).
    + injection H as H. apply app_inv_head in H. discriminate.
    + split; [discriminate|]. intros (p & tail & Hwf & Ht & ->).
      destruct (grammar_complete U p tail Hwf Ht) as (m & Hm & _).
      rewrite Hm in H.
      destruct ((LINE_LIMIT <? _) && _).
      * injection H as H. apply app_inv_head in H.
        unfold type_warning in H.
        destruct (in_type_list (group m 3)); discriminate.
      * discriminate.
  - intros [Hws Hno]. destruct (forallb isspace h); [now elim Hws|].
    destruct (re_match (HEADER_PATTERN U) h) as [m|] eqn:Hm; [|reflexivity].
    exfalso. apply Hno.
    destruct (grammar_sound U h m Hm) as (p & tail & Hwf & Hh & Ht & _).
    now exists p, tail.
Qed.

(** X5.  A message whose first line is blank while the rest is not
    fails with [EMPTY_HEADER]; the body is not examined. *)
Theorem blank_first_line_is_empty_header (h b : str) (out : list printed) :
  whitespace_only h -> ~ In NL h -> ~ whitespace_only b ->
  validate_commit_message U (h ++ NL :: b) out
  = (Ret false, out ++ report EMPTY_HEADER []).
Proof.
  unfold whitespace_only. intros Hh Hnl Hb.
  rewrite validate_lines; [| | |exact Hnl].
  - now rewrite check_header_cases, Hh.
  - rewrite forallb_app. simpl.
    destruct (forallb isspace b); [now elim Hb|]. apply andb_false_r.
  - destruct (startswith (text "Merge ") (h ++ NL :: b)) eqn:E; [|reflexivity].
    apply startswith_before_newline in E;
      [|apply not_in_newline; reflexivity].
    assert (F : forallb isspace (text "Merge ") = true)
      by (apply (startswith_forallb isspace _ h E Hh)).
    discriminate F.
Qed.

(** X6.  Whenever the body check returns, it returns [True] exactly
    when the body is whitespace-only or begins with an empty line and
    no line of [splitlines] is longer than [LINE_LIMIT]; it has then
    printed nothing, and otherwise it has printed one report,
    [NO_BLANK_LINE_BEFORE_BODY] or [LINE_OVERLONG] for a line of the
    body. *)
Theorem check_body_decides (body : str) (out out' : list printed)
        (b : bool) :
  check_body body out = (Ret b, out') ->
  b = body_ok body /\
  exists d,
    out' = out ++ d /\
    (b = true -> d = []) /\
    (b = false ->
     d = report NO_BLANK_LINE_BEFORE_BODY [] \/
     exists l, In l (splitlines body) /\ d = overlong l).
Proof.
  rewrite check_body_cases. unfold body_ok.
  destruct (forallb isspace body); cbn [orb].
  { intros [= <- <-]. split; [reflexivity|]. exists [].
    rewrite app_nil_r. repeat split; auto; discriminate. }
  destruct (truthy (first_line body)); cbn [negb andb].
  { intros [= <- <-]. split; [reflexivity|]. eexists.
    split; [reflexivity|]. split; [discriminate|]. auto. }
  destruct (find _ (splitlines body)) as [l|] eqn:E.
  - rewrite (find_some_long _ _ E). intros [= <- <-].
    split; [reflexivity|]. eexists.
    split; [reflexivity|]. split; [discriminate|].
    intros _. right. exists l. split; [|reflexivity].
    now apply find_some in E.
  - apply find_none_forallb in E. rewrite E. intros [= <- <-].
    split; [reflexivity|]. exists [].
    rewrite app_nil_r. repeat split; auto; discriminate.
Qed.

(** X7.  On a string whose only line boundaries are newlines,
    [splitlines] gives the pieces between the newlines, without the
    final piece when that one is empty. *)
Theorem splitlines_newline_only (s : str) :
  only_newline_breaks s ->
  splitlines s = drop_final_empty (newline_lines s).
Proof.
  intros H.
  destruct (splitlines_from_split s H [] (S (List.length s)))
    as (l & ls & E & E'); [lia|].
  unfold splitlines, newline_lines, split_all. now rewrite E', E.
Qed.

(** X8.  For a body whose only line boundaries are newlines, that is
    not whitespace-only and begins with an empty line, the first piece
    between newlines that is longer than [LINE_LIMIT] is reported as
    [LINE_OVERLONG] with its length and text, and the check fails. *)
Theorem body_first_overlong_newline_line (body : str)
        (pre post : list str) (l : str) :
  only_newline_breaks body ->
  ~ whitespace_only body ->
  first_line body = [] ->
  newline_lines body = pre ++ l :: post ->
  Forall (fun x => len x <= LINE_LIMIT) pre ->
  LINE_LIMIT < len l ->
  forall out,
    check_body body out
    = (Ret false,
       out ++ report LINE_OVERLONG
                [("length"%string, VInt (len l)); ("line"%string, VStr l)]).
Proof.
  intros Hnl Hws Hfl Hsplit Hpre Hl out.
  destruct (splitlines_from_split body Hnl [] (S (List.length body)))
    as (l0 & ls & E & E'); [lia|].
  unfold newline_lines, split_all in Hsplit. rewrite E in Hsplit.
  assert (E2 : splitlines body = pre ++ l :: drop_final_empty post).
  { unfold splitlines. rewrite E'.
    rewrite <- drop_final_empty_app
      by (intros ->; vm_compute in Hl; discriminate Hl).
    f_equal. exact Hsplit. }
  rewrite check_body_cases.
  destruct (forallb isspace body) eqn:F; [now elim Hws|].
  rewrite Hfl. cbn [truthy]. rewrite E2.
  rewrite <- check_lines_find.
  now apply check_lines_first_overlong.
Qed.

(** X13.  No line produced by [splitlines] holds a line boundary
    character, so the [line] field of a [LINE_OVERLONG] report of the
    body check is always a single line. *)
Theorem splitlines_lines_clean (s l : str) (c : char) :
  In l (splitlines s) -> In c l -> islinebreak c = false.
Proof.
  intros Hl Hc.
  pose proof (splitlines_from_clean (List.length s) s [] (le_n _) eq_refl)
    as H.
  rewrite Forall_forall in H. specialize (H l Hl).
  rewrite forallb_forall in H. specialize (H c Hc).
  now apply negb_true_iff in H.
Qed.

(** X10.  Whenever the validation returns, it has printed one verdict,
    after at most one [WRONG_TYPE] warning: [VALIDATED] or [MERGE] when
    it returns [True], and one of [EMPTY_MESSAGE], [EMPTY_HEADER],
    [BAD_HEADER_FORMAT], [NO_BLANK_LINE_BEFORE_BODY], [LINE_OVERLONG]
    (each followed by the rule text) when it returns [False]. *)
Theorem validate_verdict (m : str) (out out' : list printed) (b : bool) :
  validate_commit_message U m out = (Ret b, out') ->
  exists w e kw,
    out' = out ++ w ++ report e kw /\
    (w = [] \/ exists t, w = report WRONG_TYPE [("type"%string, t)]) /\
    In e (if b then [VALIDATED; MERGE]
          else [EMPTY_MESSAGE; EMPTY_HEADER; BAD_HEADER_FORMAT;
                NO_BLANK_LINE_BEFORE_BODY; LINE_OVERLONG]).
Proof.
  intros H.
  assert (fin : forall w e kw (b0 : bool),
             (w = [] \/ exists t, w = report WRONG_TYPE [("type"%string, t)]) ->
             In e (if b0 then [VALIDATED; MERGE]
                   else [EMPTY_MESSAGE; EMPTY_HEADER; BAD_HEADER_FORMAT;
                         NO_BLANK_LINE_BEFORE_BODY; LINE_OVERLONG]) ->
             exists w' e' kw',
               out ++ w ++ report e kw = out ++ w' ++ report e' kw' /\
               (w' = [] \/
                exists t, w' = report WRONG_TYPE [("type"%string, t)]) /\
               In e' (if b0 then [VALIDATED; MERGE]
                      else [EMPTY_MESSAGE; EMPTY_HEADER; BAD_HEADER_FORMAT;
                            NO_BLANK_LINE_BEFORE_BODY; LINE_OVERLONG])).
  { intros w e kw b0 Hw He. now exists w, e, kw. }
  destruct (forallb isspace m) eqn:Hws.
  { rewrite validate_blank in H by exact Hws. injection H as <- <-.
    apply (fin [] EMPTY_MESSAGE [] false); simpl; auto 10. }
  destruct (startswith (text "Merge ") m) eqn:Hm.
  { rewrite validate_merge in H by assumption. injection H as <- <-.
    apply (fin [] MERGE [] true); simpl; auto 10. }
  destruct (in_dec N.eq_dec NL m) as [Hin|Hnl];
    [|rewrite validate_one_line in H by assumption; discriminate].
  destruct (first_newline m Hin) as (h & body & -> & Hh).
  rewrite validate_lines in H by assumption.
  rewrite check_header_cases in H.
  destruct (forallb isspace h).
  { injection H as <- <-. apply (fin [] EMPTY_HEADER [] false); simpl; auto 10. }
  destruct (re_match (HEADER_PATTERN U) h) as [mo|].
  2:{ injection H as <- <-.
      apply (fin [] BAD_HEADER_FORMAT _ false); simpl; auto 10. }
  assert (W : type_warning (group mo 3) = [] \/
              exists t, type_warning (group mo 3)
                        = report WRONG_TYPE [("type"%string, t)]).
  { unfold type_warning. destruct (in_type_list (group mo 3)); eauto. }
  destruct ((LINE_LIMIT <? len h) && _).
  { injection H as <- <-.
    apply (fin _ LINE_OVERLONG _ false W); simpl; auto 10. }
  rewrite check_body_cases in H.
  destruct (forallb isspace body).
  { injection H as <- <-. rewrite <- app_assoc.
    apply (fin _ VALIDATED [] true W); simpl; auto 10. }
  destruct (truthy (first_line body)).
  { injection H as <- <-. rewrite <- app_assoc.
    apply (fin _ NO_BLANK_LINE_BEFORE_BODY [] false W); simpl; auto 10. }
  destruct (find _ (splitlines body)) as [l|].
  - injection H as <- <-. rewrite <- app_assoc.
    apply (fin _ LINE_OVERLONG _ false W); simpl; auto 10.
  - injection H as <- <-. rewrite <- app_assoc.
    apply (fin _ VALIDATED [] true W); simpl; auto 10.
Qed.

Lemma check_body_true_iff (body : str) (out out' : list printed) :
  check_body body out = (Ret true, out') <-> body_ok body = true /\ out' = out.
Proof.
  rewrite check_body_cases. unfold body_ok.
  destruct (forallb isspace body); cbn [orb].
  { split; [intros [= <-]; auto|intros [_ ->]; reflexivity]. }
  destruct (truthy (first_line body)); cbn [negb andb].
  { split; [discriminate|intros [? _]; discriminate]. }
  destruct (find _ (splitlines body)) as [l|] eqn:E.
  - rewrite (find_some_long _ _ E).
    split; [discriminate|intros [? _]; discriminate].
  - apply find_none_forallb in E. rewrite E.
    split; [intros [= <-]; auto|intros [_ ->]; reflexivity].
Qed.

Lemma forallb_not_in (q : char -> bool) (c : char) (l : str) :
  q c = false -> forallb q l = true -> ~ In c l.
Proof.
  intros Hc Hl Hin. rewrite forallb_forall in Hl.
  rewrite (Hl c Hin) in Hc. discriminate.
Qed.

(** A well-formed header is one line, is not blank, and is no merge. *)
Lemma render_no_newline (p : header_parts) :
  well_formed U p = true -> ~ In NL (render_header p).
Proof.
  destruct p as [po ty so subj]. unfold well_formed, render_header.
  cbn [hp_prefix hp_type hp_scope hp_subject]. intros Hwf.
  repeat (apply andb_prop in Hwf; destruct Hwf as [Hwf ?]).
  rewrite !in_app_iff. intros [Hin|[Hin|[Hin|[Hin|Hin]]]].
  - destruct po as [kw|]; [|exact Hin]. unfold is_prefix_keyword in Hwf.
    destruct (str_eq_dec kw (text "fixup! ")) as [->|_];
      [|destruct (str_eq_dec kw (text "squash! ")) as [->|_];
        [|discriminate]];
      revert Hin; apply not_in_newline; reflexivity.
  - revert Hin. now apply (forallb_not_in (word U)).
  - destruct so as [sc|]; [|exact Hin].
    apply andb_prop in H1. destruct H1 as [_ Hsc].
    destruct Hin as [Hin|Hin]; [discriminate Hin|].
    apply in_app_iff in Hin. destruct Hin as [Hin|[Hin|[]]];
      [|discriminate Hin].
    revert Hin. now apply (forallb_not_in scope_char).
  - revert Hin. apply not_in_newline. reflexivity.
  - revert Hin. now apply (forallb_not_in dot).
Qed.

Lemma render_message_checked (p : header_parts) (body : str) :
  well_formed U p = true ->
  forallb isspace (render_header p ++ NL :: body) = false /\
  startswith (text "Merge ") (render_header p ++ NL :: body) = false.
Proof.
  intros Hwf.
  destruct (grammar_complete U p [] Hwf eq_refl) as (m & Hm & _).
  rewrite app_nil_r in Hm. split.
  - pose proof (header_match_strip _ _ _ Hm) as Hs.
    rewrite strip_truthy_iff in Hs. apply negb_true_iff in Hs.
    rewrite forallb_app, Hs. reflexivity.
  - destruct (startswith _ (render_header p ++ NL :: body)) eqn:E;
      [|reflexivity].
    apply startswith_before_newline in E;
      [|apply not_in_newline; reflexivity].
    rewrite (header_not_merge U _ E) in Hm. discriminate.
Qed.

(** X11.  The messages accepted without any remark.  The validation
    returns [True] having printed [VALIDATED] and nothing else exactly
    for a well-formed header whose type is in [TYPE_LIST] and whose
    length passes, followed by a newline and a body that passes the
    body check. *)
Theorem clean_acceptance_iff (m : str) (out : list printed) :
  validate_commit_message U m out = (Ret true, out ++ report VALIDATED [])
  <->
  exists p body,
    m = render_header p ++ NL :: body /\
    well_formed U p = true /\
    In (hp_type p) TYPE_LIST /\
    length_ok p = true /\
    body_ok body = true.
Proof.
  split.
  - intros H.
    destruct (forallb isspace m) eqn:Hws;
      [rewrite validate_blank in H by exact Hws; discriminate|].
    destruct (startswith (text "Merge ") m) eqn:Hm.
    { rewrite validate_merge in H by assumption. injection H as H.
      apply app_inv_head in H. discriminate. }
    destruct (in_dec N.eq_dec NL m) as [Hin|Hnl];
      [|rewrite validate_one_line in H by assumption; discriminate].
    destruct (first_newline m Hin) as (h & body & -> & Hh).
    rewrite validate_lines in H by assumption.
    destruct (re_match (HEADER_PATTERN U) h) as [mo|] eqn:Hmo.
    2:{ rewrite check_header_cases, Hmo in H.
        destruct (forallb isspace h); discriminate. }
    destruct (grammar_sound U h mo Hmo) as (p & tail & Hwf & -> & Ht & _).
    destruct tail as [|x tail].
    2:{ exfalso. apply Hh. apply in_or_app. right. left.
        simpl in Ht. apply N.eqb_eq in Ht. now symmetry. }
    rewrite app_nil_r in *.
    rewrite (check_header_parts U p out Hwf) in H.
    destruct (length_ok p) eqn:Hlen; [|discriminate].
    destruct (check_body body (out ++ type_warning (Some (hp_type p))))
      as [[[|]|e] o2] eqn:Hb; try discriminate.
    apply check_body_true_iff in Hb. destruct Hb as [Hb ->].
    injection H as H. rewrite <- app_assoc in H. apply app_inv_head in H.
    exists p, body. repeat split; auto.
    unfold type_warning, in_type_list in H.
    destruct (in_dec str_eq_dec (hp_type p) TYPE_LIST); [assumption|].
    discriminate.
  - intros (p & body & -> & Hwf & Hty & Hlen & Hb).
    destruct (render_message_checked p body Hwf) as [Hws Hm].
    rewrite validate_lines; [|assumption|assumption|].
    2:{ now apply render_no_newline. }
    rewrite (check_header_parts U p out Hwf), Hlen.
    unfold type_warning, in_type_list.
    destruct (in_dec str_eq_dec (hp_type p) TYPE_LIST); [|contradiction].
    rewrite app_nil_r.
    assert (E : check_body body out = (Ret true, out))
      by (apply check_body_true_iff; auto).
    now rewrite E.
Qed.

(** X12.  The program exits with status 0 exactly when a non-empty
    file argument is given, the file exists, and the validation of its
    text returns [True]; what it has printed is then what the
    validation printed. *)
Theorem main_exit_zero_iff (argv : list str) (fs : str -> file)
        (out out' : list printed) :
  main U argv fs out = (Ret 0, out')
  <->
  exists path contents,
    nth_error argv 1 = Some path /\ path <> [] /\
    fs path = Readable contents /\
    validate_commit_message U contents out = (Ret true, out').
Proof.
  unfold main. split.
  - intros H. destruct (nth_error argv 1) as [[|c path]|];
      cbn [truthy_opt truthy negb opt_text] in H.
    + rewrite report_then_ret in H by reflexivity. discriminate.
    + destruct (fs (c :: path)) as [|contents] eqn:F.
      * rewrite report_then_ret in H by reflexivity. discriminate.
      * exists (c :: path), contents. repeat split; auto; [discriminate|].
        unfold bind in H.
        destruct (validate_commit_message U contents out) as [[[|]|e] o];
          cbn [negb] in H; try discriminate.
        now injection H as <-.
    + rewrite report_then_ret in H by reflexivity. discriminate.
  - intros (path & contents & -> & Hp & F & H).
    destruct path as [|c path]; [contradiction|].
    cbn [truthy_opt truthy negb opt_text].
    rewrite F. unfold bind. now rewrite H.
Qed.

(** X14.  The program exits with status 1 in three cases only: no
    argument or an empty one ([ARG_MISSING] is printed), a file that
    does not exist ([FILE_MISSING] with the path is printed), or a
    validation that returns [False].  In the first two cases one line
    is printed, without the rule text, and nothing is validated. *)
Theorem main_exit_one_iff (argv : list str) (fs : str -> file)
        (out out' : list printed) :
  main U argv fs out = (Ret 1, out')
  <->
  ((nth_error argv 1 = None \/ nth_error argv 1 = Some []) /\
   out' = out ++ [Formatted LANG ARG_MISSING
                    [("errorname"%string, VStr (text "ARG_MISSING"))]])
  \/
  (exists path,
      nth_error argv 1 = Some path /\ path <> [] /\ fs path = Missing /\
      out' = out ++ [Formatted LANG FILE_MISSING
                       [("filepath"%string, VStr path);
                        ("errorname"%string, VStr (text "FILE_MISSING"))]])
  \/
  (exists path contents,
      nth_error argv 1 = Some path /\ path <> [] /\
      fs path = Readable contents /\
      validate_commit_message U contents out = (Ret false, out')).
Proof.
  unfold main. split.
  - intros H. destruct (nth_error argv 1) as [[|c path]|];
      cbn [truthy_opt truthy negb opt_text] in H.
    + rewrite report_then_ret in H by reflexivity.
      injection H as <-. left. auto.
    + destruct (fs (c :: path)) as [|contents] eqn:F.
      * rewrite report_then_ret in H by reflexivity.
        injection H as <-. right. left. exists (c :: path).
        repeat split; auto. discriminate.
      * right. right. exists (c :: path), contents.
        repeat split; auto; [discriminate|].
        unfold bind in H.
        destruct (validate_commit_message U contents out) as [[[|]|e] o];
          cbn [negb] in H; try discriminate.
        now injection H as <-.
    + rewrite report_then_ret in H by reflexivity.
      injection H as <-. left. auto.
  - intros [[[E|E] ->]|[(path & E & Hp & F & ->)|(path & contents & E & Hp & F & H)]];
      rewrite E.
    + cbn [truthy_opt truthy negb opt_text]. now rewrite report_then_ret.
    + cbn [truthy_opt truthy negb opt_text]. now rewrite report_then_ret.
    + destruct path as [|c path]; [contradiction|].
      cbn [truthy_opt truthy negb opt_text]. rewrite F.
      now rewrite report_then_ret.
    + destruct path as [|c path]; [contradiction|].
      cbn [truthy_opt truthy negb opt_text]. rewrite F.
      unfold bind. now rewrite H.
Qed.

(** X15.  The parts of a well-formed header are determined by its
    text: two well-formed headers that are written the same have the
    same prefix, type, scope and subject. *)
Theorem header_parts_unique (p q : header_parts) :
  well_formed U p = true -> well_formed U q = true ->
  render_header p = render_header q -> p = q.
Proof.
  intros Hp Hq E.
  destruct (grammar_complete U p [] Hp eq_refl)
    as (m & Hm & _ & P2 & P3 & P4 & P5).
  destruct (grammar_complete U q [] Hq eq_refl)
    as (m' & Hm' & _ & Q2 & Q3 & Q4 & Q5).
  rewrite E, Hm' in Hm. injection Hm as <-.
  destruct p, q. simpl in *. congruence.
Qed.

(** X16.  A [fixup! ] or [squash! ] copy of a validated message is
    validated: when a message with a well-formed header without
    prefix is accepted, the message with the prefix put before the
    header is accepted with the same output, however long the header
    has become. *)
Theorem prefixed_copy_accepted (p : header_parts) (body kw : str)
        (out out' : list printed) :
  well_formed U p = true -> hp_prefix p = None ->
  kw = text "fixup! " \/ kw = text "squash! " ->
  validate_commit_message U (render_header p ++ NL :: body) out
  = (Ret true, out') ->
  validate_commit_message U (kw ++ render_header p ++ NL :: body) out
  = (Ret true, out').
Proof.
  intros Hwf Hpre Hkw H.
  set (p' := {| hp_prefix := Some kw; hp_type := hp_type p;
                hp_scope := hp_scope p; hp_subject := hp_subject p |}).
  assert (Hwf' : well_formed U p' = true).
  { revert Hwf. unfold well_formed. rewrite Hpre. cbn [hp_prefix hp_type
      hp_scope hp_subject p']. destruct Hkw as [-> | ->]; auto. }
  assert (Hr : kw ++ render_header p ++ NL :: body
               = render_header p' ++ NL :: body).
  { unfold render_header. rewrite Hpre. cbn [hp_prefix hp_type hp_scope
      hp_subject p' opt_text app]. apply app_assoc. }
  assert (Hlen' : length_ok p' = true).
  { unfold length_ok. cbn [hp_prefix p'].
    destruct Hkw as [-> | ->]; cbn [truthy_opt truthy];
      now rewrite orb_true_r. }
  rewrite Hr.
  destruct (render_message_checked p body Hwf) as [Hws Hm].
  destruct (render_message_checked p' body Hwf') as [Hws' Hm'].
  rewrite validate_lines in H;
    [|assumption|assumption|now apply render_no_newline].
  rewrite validate_lines;
    [|assumption|assumption|now apply render_no_newline].
  rewrite (check_header_parts U p out Hwf) in H.
  rewrite (check_header_parts U p' out Hwf'), Hlen'.
  destruct (length_ok p); [exact H|discriminate].
Qed.

(** Two ways to cut a string at the first character outside a class. *)
Lemma class_prefix_unique (q : char -> bool) :
  forall w1 w2 a b r1 r2,
    forallb q w1 = true -> forallb q w2 = true ->
    q a = false -> q b = false ->
    w1 ++ a :: r1 = w2 ++ b :: r2 ->
    w1 = w2 /\ a = b.
Proof.
  induction w1 as [|x w1 IH]; intros [|y w2] a b r1 r2 H1 H2 Ha Hb E;
    simpl in *.
  - injection E as -> _. auto.
  - injection E as -> _. apply andb_prop in H2. destruct H2 as [H2 _].
    rewrite H2 in Ha. discriminate.
  - injection E as -> _. apply andb_prop in H1. destruct H1 as [H1 _].
    rewrite H1 in Hb. discriminate.
  - injection E as -> E. apply andb_prop in H1. apply andb_prop in H2.
    destruct H1 as [_ H1]. destruct H2 as [_ H2].
    destruct (IH w2 a b r1 r2 H1 H2 Ha Hb E) as [-> ->]. auto.
Qed.

(** X17.  A header whose leading word is followed by a space is
    rejected: when the header begins with word characters and then a
    space (as in [update stuff], [feat : x] or the [Revert "..."] that
    [git revert] writes) and is not blank, the header check fails with
    [BAD_HEADER_FORMAT]. *)
Theorem word_then_space_rejected (ty rest : str) (out : list printed) :
  forallb (word U) ty = true ->
  ~ whitespace_only (ty ++ ord " " :: rest) ->
  check_header U (ty ++ ord " " :: rest) out
  = (Ret false,
     out ++ report BAD_HEADER_FORMAT
              [("header"%string, VStr (ty ++ ord " " :: rest))]).
Proof.
  intros Hty Hws. rewrite check_header_cases.
  destruct (forallb isspace (ty ++ ord " " :: rest)) eqn:F; [now elim Hws|].
  destruct (re_match (HEADER_PATTERN U) _) as [m|] eqn:Hm; [|reflexivity].
  exfalso.
  destruct (grammar_sound U _ m Hm) as (p & tail & Hwf & Hh & _).
  destruct p as [po ty' so subj]. unfold well_formed, render_header in *.
  cbn [hp_prefix hp_type hp_scope hp_subject] in *.
  repeat (apply andb_prop in Hwf; destruct Hwf as [Hwf ?]).
  destruct po as [kw|]; cbn [opt_text] in Hh.
  - unfold is_prefix_keyword in Hwf.
    destruct (str_eq_dec kw (text "fixup! ")) as [->|_];
      [|destruct (str_eq_dec kw (text "squash! ")) as [->|_];
        [|discriminate]].
    + change (text "fixup! ") with (text "fixup" ++ ord "!" :: text " ") in Hh.
      rewrite <- !app_assoc in Hh. cbn [app] in Hh.
      apply (class_prefix_unique (word U)) in Hh; try reflexivity; auto.
      destruct Hh as [_ Hh]. discriminate Hh.
    + change (text "squash! ")
        with (text "squash" ++ ord "!" :: text " ") in Hh.
      rewrite <- !app_assoc in Hh. cbn [app] in Hh.
      apply (class_prefix_unique (word U)) in Hh; try reflexivity; auto.
      destruct Hh as [_ Hh]. discriminate Hh.
  - cbn [app] in Hh. rewrite <- !app_assoc in Hh.
    destruct so as [sc|]; cbn [app text] in Hh.
    + apply (class_prefix_unique (word U)) in Hh; try reflexivity; auto.
      destruct Hh as [_ Hh]. discriminate Hh.
    + apply (class_prefix_unique (word U)) in Hh; try reflexivity; auto.
      destruct Hh as [_ Hh]. discriminate Hh.
Qed.

(** X18.  A second prefix is not accepted: a header that begins with
    two of the prefixes [fixup! ] and [squash! ] in a row fails the
    header check with [BAD_HEADER_FORMAT], whatever follows. *)
Theorem double_prefix_rejected (kw1 kw2 rest : str) (out : list printed) :
  kw1 = text "fixup! " \/ kw1 = text "squash! " ->
  kw2 = text "fixup! " \/ kw2 = text "squash! " ->
  check_header U (kw1 ++ kw2 ++ rest) out
  = (Ret false,
     out ++ report BAD_HEADER_FORMAT
              [("header"%string, VStr (kw1 ++ kw2 ++ rest))]).
Proof.
  intros H1 H2. rewrite check_header_cases.
  destruct H1 as [-> | ->], H2 as [-> | ->];
    (replace (re_match (HEADER_PATTERN U) _) with (@None Match)
      by (vm_compute; reflexivity));
    reflexivity.
Qed.

(** X19.  The one-line defect at the level of the program: when the
    named file holds a text that is not whitespace-only, does not
    begin with [Merge ] and has no newline, the program does not reach
    [sys.exit]; it ends with the uncaught [ValueError] of the
    unpacking, having printed nothing. *)
Theorem main_single_line_raises (argv : list str) (fs : str -> file)
        (path contents : str) (out : list printed) :
  nth_error argv 1 = Some path -> path <> [] ->
  fs path = Readable contents ->
  ~ whitespace_only contents ->
  startswith (text "Merge ") contents = false ->
  ~ In NL contents ->
  main U argv fs out = (Raise ValueError, out).
Proof.
  intros Ha Hp F Hws Hm Hnl. unfold main. rewrite Ha.
  destruct path as [|c path]; [contradiction|].
  cbn [truthy_opt truthy negb opt_text]. rewrite F. unfold bind.
  rewrite validate_one_line; auto.
  unfold whitespace_only in Hws.
  destruct (forallb isspace contents); [now elim Hws|reflexivity].
Qed.

End More.

(** ** The further properties at concrete inputs *)

Lemma header_match_parts_witness :
  let h := text "squash! fix(parser): handle arrays" in
  let m := {| m_end := 34;
              m_groups := [(1%nat, h); (5%nat, text "handle arrays");
                           (4%nat, text "parser"); (3%nat, text "fix");
                           (2%nat, text "squash! ")] |} in
  re_match (HEADER_PATTERN ascii_table) h = Some m /\
  exists p tail,
    well_formed ascii_table p = true /\
    h = render_header p ++ tail /\ line_end tail = true /\
    group m 1 = Some (render_header p) /\
    group m 2 = hp_prefix p /\
    group m 3 = Some (hp_type p) /\
    group m 4 = hp_scope p /\
    group m 5 = Some (hp_subject p).
Proof.
  intros h m.
  assert (Hm : re_match (HEADER_PATTERN ascii_table) h = Some m)
    by reflexivity.
  split; [exact Hm|].
  exact (header_match_parts ascii_table h m Hm).
Defined.

Lemma header_parts_match_witness :
  let p := {| hp_prefix := Some (text "fixup! "); hp_type := text "feat";
              hp_scope := None; hp_subject := text "add arrays" |} in
  let tail := NL :: text "body" in
  well_formed ascii_table p = true /\ line_end tail = true /\
  exists m,
    re_match (HEADER_PATTERN ascii_table) (render_header p ++ tail) = Some m /\
    group m 1 = Some (render_header p) /\
    group m 2 = hp_prefix p /\
    group m 3 = Some (hp_type p) /\
    group m 4 = hp_scope p /\
    group m 5 = Some (hp_subject p).
Proof.
  intros p tail.
  assert (H1 : well_formed ascii_table p = true) by reflexivity.
  assert (H2 : line_end tail = true) by reflexivity.
  split; [exact H1|]. split; [exact H2|].
  exact (header_parts_match ascii_table p tail H1 H2).
Defined.

Lemma well_formed_header_checked_witness :
  let p := {| hp_prefix := None; hp_type := text "foo";
              hp_scope := Some (text "api"); hp_subject := text "bar" |} in
  well_formed ascii_table p = true /\
  check_header ascii_table (text "foo(api): bar") []
  = (Ret true, report WRONG_TYPE [("type"%string, VStr (text "foo"))]).
Proof.
  intros p.
  assert (H1 : well_formed ascii_table p = true) by reflexivity.
  split; [exact H1|].
  exact (well_formed_header_checked ascii_table p [] H1).
Defined.

Lemma blank_first_line_is_empty_header_witness :
  whitespace_only (text "  ") /\ ~ In NL (text "  ") /\
  ~ whitespace_only (text "feat: x") /\
  validate_commit_message ascii_table (text "  " ++ NL :: text "feat: x") []
  = (Ret false, report EMPTY_HEADER []).
Proof.
  assert (H1 : whitespace_only (text "  ")) by reflexivity.
  assert (H2 : ~ In NL (text "  ")) by (apply not_in_newline; reflexivity).
  assert (H3 : ~ whitespace_only (text "feat: x"))
    by (intros H; vm_compute in H; discriminate H).
  split; [exact H1|]. split; [exact H2|]. split; [exact H3|].
  exact (blank_first_line_is_empty_header ascii_table _ _ [] H1 H2 H3).
Defined.

Lemma splitlines_newline_only_witness :
  let s := text "a" ++ [NL; NL] ++ text "b" ++ [NL] in
  only_newline_breaks s /\
  newline_lines s = [text "a"; []; text "b"; []] /\
  splitlines s = [text "a"; []; text "b"].
Proof.
  intros s.
  assert (H1 : only_newline_breaks s) by reflexivity.
  split; [exact H1|]. split; [reflexivity|].
  exact (splitlines_newline_only s H1).
Defined.

Lemma body_first_overlong_newline_line_witness :
  let l := repeat (ord "x") 101 in
  let body := NL :: l ++ NL :: text "end" in
  only_newline_breaks body /\ ~ whitespace_only body /\
  first_line body = [] /\
  newline_lines body = [[]; l; text "end"] /\
  check_body body []
  = (Ret false,
     report LINE_OVERLONG
       [("length"%string, VInt 101); ("line"%string, VStr l)]).
Proof.
  intros l body.
  assert (H0 : only_newline_breaks body) by reflexivity.
  assert (H1 : ~ whitespace_only body)
    by (intros H; vm_compute in H; discriminate H).
  assert (H2 : first_line body = []) by reflexivity.
  assert (H3 : newline_lines body = [[]] ++ l :: [text "end"])
    by reflexivity.
  assert (H4 : Forall (fun x => len x <= LINE_LIMIT) [[]])
    by (repeat constructor; discriminate).
  assert (H5 : LINE_LIMIT < len l) by reflexivity.
  split; [exact H0|]. split; [exact H1|]. split; [exact H2|].
  split; [exact H3|].
  exact (body_first_overlong_newline_line body [[]] [text "end"] l
           H0 H1 H2 H3 H4 H5 []).
Defined.

Lemma splitlines_lines_clean_witness :
  let s := text "ab" ++ [12] ++ text "cd" in
  In (text "ab") (splitlines s) /\ In (ord "b") (text "ab") /\
  islinebreak (ord "b") = false.
Proof.
  intros s.
  assert (H1 : In (text "ab") (splitlines s)) by (left; reflexivity).
  assert (H2 : In (ord "b") (text "ab")) by (right; left; reflexivity).
  split; [exact H1|]. split; [exact H2|].
  exact (splitlines_lines_clean s (text "ab") (ord "b") H1 H2).
Defined.

Lemma validate_verdict_witness :
  let m := text "foo: " ++ repeat (ord "x") 100 ++ [NL] in
  validate_commit_message ascii_table m []
  = (Ret false,
     report WRONG_TYPE [("type"%string, VStr (text "foo"))]
     ++ overlong (text "foo: " ++ repeat (ord "x") 100)) /\
  exists w e kw,
    report WRONG_TYPE [("type"%string, VStr (text "foo"))]
    ++ overlong (text "foo: " ++ repeat (ord "x") 100)
    = [] ++ w ++ report e kw /\
    (w = [] \/ exists t, w = report WRONG_TYPE [("type"%string, t)]) /\
    In e [EMPTY_MESSAGE; EMPTY_HEADER; BAD_HEADER_FORMAT;
          NO_BLANK_LINE_BEFORE_BODY; LINE_OVERLONG].
Proof.
  intros m.
  assert (H1 : validate_commit_message ascii_table m []
               = (Ret false,
                  report WRONG_TYPE [("type"%string, VStr (text "foo"))]
                  ++ overlong (text "foo: " ++ repeat (ord "x") 100)))
    by reflexivity.
  split; [exact H1|].
  exact (validate_verdict ascii_table m [] _ false H1).
Defined.

Lemma header_parts_unique_witness :
  let p := {| hp_prefix := None; hp_type := text "feat";
              hp_scope := Some (text "ui"); hp_subject := text "a: b" |} in
  well_formed ascii_table p = true /\
  render_header p = text "feat(ui): a: b" /\
  p = p.
Proof.
  intros p.
  assert (H1 : well_formed ascii_table p = true) by reflexivity.
  split; [exact H1|]. split; [reflexivity|].
  exact (header_parts_unique ascii_table p p H1 H1 eq_refl).
Defined.

Lemma prefixed_copy_accepted_witness :
  let p := {| hp_prefix := None; hp_type := text "feat";
              hp_scope := None; hp_subject := repeat (ord "x") 94 |} in
  well_formed ascii_table p = true /\
  len (render_header p) = 100 /\
  validate_commit_message ascii_table (render_header p ++ [NL]) []
  = (Ret true, report VALIDATED []) /\
  len (text "fixup! " ++ render_header p) = 107 /\
  validate_commit_message ascii_table
    (text "fixup! " ++ render_header p ++ [NL]) []
  = (Ret true, report VALIDATED []).
Proof.
  intros p.
  assert (H1 : well_formed ascii_table p = true) by reflexivity.
  assert (H2 : hp_prefix p = None) by reflexivity.
  assert (H3 : validate_commit_message ascii_table
                 (render_header p ++ [NL]) []
               = (Ret true, report VALIDATED [])) by reflexivity.
  split; [exact H1|]. split; [reflexivity|]. split; [exact H3|].
  split; [reflexivity|].
  exact (prefixed_copy_accepted ascii_table p [] (text "fixup! ") [] _
           H1 H2 (or_introl eq_refl) H3).
Defined.

Lemma word_then_space_rejected_witness :
  let rest := [34] ++ text "feat: add arrays" ++ [34] in
  forallb (word ascii_table) (text "Revert") = true /\
  ~ whitespace_only (text "Revert" ++ ord " " :: rest) /\
  check_header ascii_table (text "Revert" ++ ord " " :: rest) []
  = (Ret false,
     report BAD_HEADER_FORMAT
       [("header"%string, VStr (text "Revert" ++ ord " " :: rest))]).
Proof.
  intros rest.
  assert (H1 : forallb (word ascii_table) (text "Revert") = true)
    by reflexivity.
  assert (H2 : ~ whitespace_only (text "Revert" ++ ord " " :: rest))
    by (intros H; vm_compute in H; discriminate H).
  split; [exact H1|]. split; [exact H2|].
  exact (word_then_space_rejected ascii_table (text "Revert") rest [] H1 H2).
Defined.

Lemma double_prefix_rejected_witness :
  check_header ascii_table
    (text "fixup! " ++ text "fixup! " ++ text "feat: add arrays") []
  = (Ret false,
     report BAD_HEADER_FORMAT
       [("header"%string,
         VStr (text "fixup! " ++ text "fixup! " ++ text "feat: add arrays"))]).
Proof.
  exact (double_prefix_rejected ascii_table (text "fixup! ") (text "fixup! ")
           (text "feat: add arrays") [] (or_introl eq_refl)
           (or_introl eq_refl)).
Defined.

Lemma check_body_decides_witness :
  let body := NL :: repeat (ord "x") 101 in
  check_body body [] = (Ret false, overlong (repeat (ord "x") 101)) /\
  false = body_ok body /\
  exists d,
    overlong (repeat (ord "x") 101) = [] ++ d /\
    (false = true -> d = []) /\
    (false = false ->
     d = report NO_BLANK_LINE_BEFORE_BODY [] \/
     exists l, In l (splitlines body) /\ d = overlong l).
Proof.
  intros body.
  assert (H1 : check_body body []
               = (Ret false, overlong (repeat (ord "x") 101)))
    by reflexivity.
  split; [exact H1|].
  exact (check_body_decides body [] _ false H1).
Defined.

Lemma main_single_line_raises_witness :
  let argv := [text "validate.py"; text "COMMIT_EDITMSG"] in
  let fs := fun _ : str => Readable (text "update stuff") in
  nth_error argv 1 = Some (text "COMMIT_EDITMSG") /\
  ~ whitespace_only (text "update stuff") /\
  startswith (text "Merge ") (text "update stuff") = false /\
  ~ In NL (text "update stuff") /\
  main ascii_table argv fs [] = (Raise ValueError, []).
Proof.
  intros argv fs.
  assert (H1 : nth_error argv 1 = Some (text "COMMIT_EDITMSG"))
    by reflexivity.
  assert (H2 : text "COMMIT_EDITMSG" <> []) by discriminate.
  assert (H3 : fs (text "COMMIT_EDITMSG") = Readable (text "update stuff"))
    by reflexivity.
  assert (H4 : ~ whitespace_only (text "update stuff"))
    by (intros H; vm_compute in H; discriminate H).
  assert (H5 : startswith (text "Merge ") (text "update stuff") = false)
    by reflexivity.
  assert (H6 : ~ In NL (text "update stuff"))
    by (apply not_in_newline; reflexivity).
  split; [exact H1|]. split; [exact H4|]. split; [exact H5|].
  split; [exact H6|].
  exact (main_single_line_raises ascii_table argv fs _ _ []
           H1 H2 H3 H4 H5 H6).
Defined.
